(** * VibeAround web dashboard: terminal stream, chat stream and session registry

    A shallow embedding of the client-side handlers of the dashboard
    ([TerminalView.tsx], [ChatView.tsx], [App.tsx]) and the properties of
    the streaming protocol they implement.

    React state hooks are modelled by explicit state passing: a handler is
    a function from the component's state to its next state, and an
    updater passed to [setX(prev => ...)] is applied to the current value
    of [X].  Objects the handlers call into (the xterm surface, the
    WebSocket) are recorded by the calls made on them, in order. *)

From Stdlib Require Import ZArith String Ascii List PrimFloat.
From Stdlib.Strings Require Import Byte.
From stdpp Require Import base option list strings.

Local Open Scope Z_scope.
Set Warnings "-register-all".

(** ** JavaScript values

    A JavaScript string is kept as a string here: the handlers only
    concatenate strings, compare them with literals and test them for
    emptiness.  [JSON.parse] and [String.prototype.trim] are the
    platform's and enter the handlers as parameters. *)

Module Js.

(** A value as [JSON.parse] returns it.  Numbers are IEEE doubles. *)
Inductive value : Type :=
| Null
| Bool (b : bool)
| Num (x : float)
| Str (s : string)
| Arr (xs : list value)
| Obj (props : list (string * value)).

(** The own property [k] of an object given by its property list.  When a
    key is listed twice the later entry counts, as in JSON text. *)
Fixpoint own (k : string) (props : list (string * value)) : option value :=
  match props with
  | [] => None
  | (k', v) :: rest =>
      match own k rest with
      | Some w => Some w
      | None => if String.eqb k k' then Some v else None
      end
  end.

(** [j.k] for a named key [k] of a value other than [null]: [None] is
    [undefined].  Primitives and arrays have none of the keys the handlers
    read ([type], [tool], [exit_code], [done], [error], [progress],
    [text]).  Reading a property of [null] throws; the handlers below
    treat [Null] before they call [get]. *)
Definition get (j : value) (k : string) : option value :=
  match j with
  | Obj props => own k props
  | _ => None
  end.

(** [v === s] for a string literal [s]. *)
Definition is_string (v : option value) (s : string) : bool :=
  match v with
  | Some (Str t) => String.eqb t s
  | _ => false
  end.

(** [v === x] for a number literal [x]: IEEE equality, so [-0 === 0]. *)
Definition is_number (v : option value) (x : float) : bool :=
  match v with
  | Some (Num y) => PrimFloat.eqb y x
  | _ => false
  end.

(** [v === true]. *)
Definition is_true (v : option value) : bool :=
  match v with
  | Some (Bool true) => true
  | _ => false
  end.

(** [typeof v === "string"], with the string when it is one. *)
Definition as_string (v : option value) : option string :=
  match v with
  | Some (Str s) => Some s
  | _ => None
  end.

(** A string in a boolean position: the empty string is falsy. *)
Definition truthy (s : string) : bool :=
  match s with
  | EmptyString => false
  | String _ _ => true
  end.

(** The line feed of ["\n"]. *)
Definition LF : string := String (ascii_of_nat 10) EmptyString.

(** [Array.prototype.slice(start)] with a single argument: a negative
    [start] counts from the end, and both ends are clamped. *)
Definition slice {A : Type} (start : Z) (l : list A) : list A :=
  let len := Z.of_nat (length l) in
  let k := if start <? 0 then Z.max (len + start) 0 else Z.min start len in
  drop (Z.to_nat k) l.

(** [Array.prototype.join(sep)] on strings. *)
Fixpoint join (sep : string) (l : list string) : string :=
  match l with
  | [] => EmptyString
  | [x] => x
  | x :: rest => x +:+ sep +:+ join sep rest
  end.

End Js.

(** ** The WebSocket as the handlers see it *)

Module Ws.

Inductive ReadyState := CONNECTING | OPEN | CLOSING | CLOSED.

Definition is_open (r : ReadyState) : bool :=
  match r with
  | OPEN => true
  | _ => false
  end.

(** [ev.data] of a message event.  No handler sets [binaryType], so a
    binary frame arrives as a [Blob]; the [ArrayBuffer] case is the one
    the handlers test first. *)
Inductive MessageData :=
| ArrayBufferData (bytes : list byte)
| BlobData (bytes : list byte)
| StringData (s : string).

End Ws.

(** ** terminal-types.ts *)

Module TerminalTypes.

Inductive TerminalStatus := running | idle | stopped | error.

Inductive ToolType := claude | gemini | codex | generic.

Inductive ViewMode := tabs | grid.

End TerminalTypes.

Module TerminalSession.
Import TerminalTypes.

Record t := mk {
  id : string;
  name : string;
  group : string;
  tool : ToolType;
  status : TerminalStatus;
  command : string;
  cwd : string;
  startedAt : Z;
  createdAt : option Z
}.

End TerminalSession.

Module TerminalGroup.

Record t := mk {
  id : string;
  label : string;
  color : string;
  sessions : list TerminalSession.t;
  collapsed : option bool
}.

End TerminalGroup.

(** ** TerminalView.tsx: the terminal stream client *)

Module TerminalView.
Import TerminalTypes.

(** What [term.write] is given: the bytes of a binary frame, or the text
    of a string frame. *)
Inductive Chunk :=
| Bytes (bytes : list byte)
| Text (s : string).

(** The calls made on the xterm surface. *)
Inductive TermCall :=
| TermWriteln (s : string)
| TermReset
| TermWrite (c : Chunk).

(** The emulator surface: its size in cells and the calls made on it,
    oldest first. *)
Record Terminal := mkTerminal {
  cols : Z;
  rows : Z;
  calls : list TermCall
}.

(** What the socket was given to send.  A resize frame is the text
    [JSON.stringify({ type: "resize", cols, rows })], kept by its fields. *)
Inductive Sent :=
| SentResize (cols rows : Z)
| SentData (data : string).

(** One call of [fitAddon.fit()]: it throws, or it returns with the
    surface at the fitted size (the size it had when nothing changes). *)
Inductive Fit :=
| FitThrows
| Fitted (cols rows : Z).

(** The state the closures of [initTerminal] share once the socket is
    created: the surface, the socket, the [dumpReceived] flag, the blobs
    whose [arrayBuffer()] promise is pending, and the calls made on the
    [onSessionState] callback ([hasOnSessionState] tells whether
    [onSessionStateRef.current] holds one). *)
Record Conn := mkConn {
  term : Terminal;
  readyState : Ws.ReadyState;
  sent : list Sent;
  dumpReceived : bool;
  reading : list (list byte);
  hasOnSessionState : bool;
  sessionStates : list (option Js.value * TerminalStatus)
}.

Definition term_call (k : TermCall) (c : Conn) : Conn :=
  mkConn (mkTerminal (cols (term c)) (rows (term c)) (calls (term c) ++ [k]))
    (readyState c) (sent c) (dumpReceived c) (reading c)
    (hasOnSessionState c) (sessionStates c).

Definition term_resize (cs rs : Z) (c : Conn) : Conn :=
  mkConn (mkTerminal cs rs (calls (term c)))
    (readyState c) (sent c) (dumpReceived c) (reading c)
    (hasOnSessionState c) (sessionStates c).

Definition set_readyState (r : Ws.ReadyState) (c : Conn) : Conn :=
  mkConn (term c) r (sent c) (dumpReceived c) (reading c)
    (hasOnSessionState c) (sessionStates c).

Definition set_dumpReceived (b : bool) (c : Conn) : Conn :=
  mkConn (term c) (readyState c) (sent c) b (reading c)
    (hasOnSessionState c) (sessionStates c).

Definition set_reading (l : list (list byte)) (c : Conn) : Conn :=
  mkConn (term c) (readyState c) (sent c) (dumpReceived c) l
    (hasOnSessionState c) (sessionStates c).

(** [ws.send(x)]; the callers test [readyState] first. *)
Definition ws_send (x : Sent) (c : Conn) : Conn :=
  mkConn (term c) (readyState c) (sent c ++ [x]) (dumpReceived c) (reading c)
    (hasOnSessionState c) (sessionStates c).

(** [onSessionStateRef.current?.(tool, status)]. *)
Definition call_onSessionState (tool : option Js.value) (st : TerminalStatus)
    (c : Conn) : Conn :=
  if hasOnSessionState c
  then mkConn (term c) (readyState c) (sent c) (dumpReceived c) (reading c)
         (hasOnSessionState c) (sessionStates c ++ [(tool, st)])
  else c.

(** [mapTool] returns its argument. *)
Definition mapTool (t : option Js.value) : option Js.value := t.

(** [sendResize]: fit, then report [term.cols - 1] and [term.rows] when
    the socket is open; an exception of [fit] is swallowed. *)
Definition sendResize (fit : Fit) (c : Conn) : Conn :=
  match fit with
  | FitThrows => c
  | Fitted cs rs =>
      let c := term_resize cs rs c in
      if Ws.is_open (readyState c)
      then
        let cols := cols (term c) - 1 in
        let rows := rows (term c) in
        ws_send (SentResize cols rows) c
      else c
  end.

Definition CR : string := String (ascii_of_nat 13) EmptyString.
Definition CRLF : string := CR +:+ Js.LF.

(** [ws.onopen]. *)
Definition ws_onopen (fit : Fit) (c : Conn) : Conn :=
  sendResize fit
    (term_call (TermWriteln (CRLF +:+ "Connected. Receiving history…" +:+ CRLF)) c).

(** The refs of the component between handler runs: [termRef] and [wsRef]
    are set together at the end of [initTerminal] and cleared together on
    unmount, so they are one optional connection; [fitAddonRef] is set
    earlier and never cleared. *)
Record View := mkView {
  fitAddonRef : bool;
  conn : option Conn
}.

(** [fitAndSendResize]: the same as [sendResize] through the refs, each of
    which may be [null]. *)
Definition fitAndSendResize (fit : Fit) (v : View) : View :=
  match fitAddonRef v, fit with
  | true, FitThrows => v
  | has, _ =>
      match conn v with
      | None => v
      | Some c =>
          let c :=
            match has, fit with
            | true, Fitted cs rs => term_resize cs rs c
            | _, _ => c
            end in
          if Ws.is_open (readyState c)
          then mkView (fitAddonRef v)
                 (Some (ws_send (SentResize (cols (term c) - 1) (rows (term c))) c))
          else mkView (fitAddonRef v) (Some c)
      end
  end.

(** The effect on [isActive]: after the delay, [fitAddonRef.current?.fit()]
    alone; no frame is sent. *)
Definition fitWhenActive (fit : Fit) (v : View) : View :=
  match fitAddonRef v, fit, conn v with
  | true, Fitted cs rs, Some c => mkView (fitAddonRef v) (Some (term_resize cs rs c))
  | _, _, _ => v
  end.

(** A handler of the component run while the refs hold the connection
    [c]: the connection it leaves. *)
Definition through_refs (f : View -> View) (c : Conn) : Conn :=
  match conn (f (mkView true (Some c))) with
  | Some c' => c'
  | None => c
  end.

Section Handlers.

(** [JSON.parse]: [None] when it throws a [SyntaxError]. *)
Variable JSON_parse : string -> option Js.value.

(** The status expression of the [onSessionState] call:
    [msg.type === "running" ? "running"
       : msg.exit_code === 0 ? "stopped" : "error"]. *)
Definition status_of (msg : Js.value) : TerminalStatus :=
  if Js.is_string (Js.get msg "type") "running" then running
  else if Js.is_number (Js.get msg "exit_code") 0%float then stopped
  else error.

(** The body of the [try] block in the string branch: [Some msg] when the
    handler returns from inside it, [None] when control reaches the code
    after the [catch] (parse error, [null], or another shape). *)
Definition session_state_message (data : string) : option Js.value :=
  match JSON_parse data with
  | None => None
  | Some Js.Null => None
  | Some msg =>
      if Js.is_string (Js.get msg "type") "running"
         || Js.is_string (Js.get msg "type") "exited"
      then Some msg
      else None
  end.

(** [ws.onmessage]. *)
Definition ws_onmessage (data : Ws.MessageData) (c : Conn) : Conn :=
  match data with
  | Ws.ArrayBufferData bytes =>
      let c :=
        if negb (dumpReceived c)
        then set_dumpReceived true (term_call TermReset c)
        else c in
      term_call (TermWrite (Bytes bytes)) c
  | Ws.BlobData blob =>
      set_reading (reading c ++ [blob]) c
  | Ws.StringData data =>
      match session_state_message data with
      | Some msg =>
          call_onSessionState (mapTool (Js.get msg "tool")) (status_of msg) c
      | None =>
          let c :=
            if negb (dumpReceived c)
            then set_dumpReceived true (term_call TermReset c)
            else c in
          term_call (TermWrite (Text data)) c
      end
  end.

(** The continuation given to [data.arrayBuffer().then]: it runs when the
    [k]-th pending read completes. *)
Definition blob_then (k : nat) (c : Conn) : Conn :=
  match reading c !! k with
  | None => c
  | Some bytes =>
      let c := set_reading (delete k (reading c)) c in
      let c :=
        if negb (dumpReceived c)
        then set_dumpReceived true (term_call TermReset c)
        else c in
      term_call (TermWrite (Bytes bytes)) c
  end.

(** [ws.onclose] and [ws.onerror]. *)
Definition ws_onclose (c : Conn) : Conn :=
  term_call (TermWriteln (CRLF +:+ CRLF +:+ "[Connection closed. Refresh to reconnect.]")) c.

Definition ws_onerror (c : Conn) : Conn :=
  term_call (TermWriteln (CRLF +:+ CRLF +:+ "[WebSocket error. Is the app running?]")) c.

(** The listener given to [term.onData]. *)
Definition term_onData (data : string) (c : Conn) : Conn :=
  if Ws.is_open (readyState c) then ws_send (SentData data) c else c.

(** What can happen to a connection, one handler run at a time: the
    socket's events, the completion of a blob read, input from the
    surface, and the component's resize and activation effects.  The
    socket's [readyState] is the platform's: it is [OPEN] when [onopen]
    runs and [CLOSED] when [onclose] runs. *)
Inductive Event :=
| Open (fit : Fit)
| Message (data : Ws.MessageData)
| BlobRead (k : nat)
| Close
| Error
| Data (data : string)
| Resize (fit : Fit)
| Activate (fit : Fit).

Definition step (c : Conn) (e : Event) : Conn :=
  match e with
  | Open fit => ws_onopen fit (set_readyState Ws.OPEN c)
  | Message data => ws_onmessage data c
  | BlobRead k => blob_then k c
  | Close => ws_onclose (set_readyState Ws.CLOSED c)
  | Error => ws_onerror c
  | Data data => term_onData data c
  | Resize fit => through_refs (fitAndSendResize fit) c
  | Activate fit => through_refs (fitWhenActive fit) c
  end.

Definition run (c : Conn) (es : list Event) : Conn := fold_left step es c.

End Handlers.

(** The connection as [initTerminal] leaves it: the surface of the given
    size with the greeting written, the socket connecting, no dump yet. *)
Definition initTerminal (cs rs : Z) (callback : bool) : Conn :=
  mkConn
    (mkTerminal cs rs [TermWriteln "VibeAround Web Dashboard — connecting…"])
    Ws.CONNECTING [] false [] callback [].

(** Reading the surface's call log. *)
Fixpoint resets (l : list TermCall) : nat :=
  match l with
  | [] => 0%nat
  | TermReset :: rest => S (resets rest)
  | _ :: rest => resets rest
  end.

Fixpoint written (l : list TermCall) : list Chunk :=
  match l with
  | [] => []
  | TermWrite x :: rest => x :: written rest
  | _ :: rest => written rest
  end.

(** The reading of "reset exactly once, right before the first frame
    written": with no frame written there is no reset; otherwise the log
    is notices, the reset, the first frame, and a rest without reset. *)
Definition reset_once (l : list TermCall) : Prop :=
  match written l with
  | [] => resets l = 0%nat
  | first :: later =>
      exists pre rest,
        l = pre ++ TermReset :: TermWrite first :: rest
        /\ resets pre = 0%nat /\ written pre = []
        /\ resets rest = 0%nat /\ written rest = later
  end.

(** The text the three writing places of [ws.onmessage] share:
    [if (!dumpReceived) { term.reset(); dumpReceived = true; }
     term.write(x);] *)
Definition write_frame (x : Chunk) (c : Conn) : Conn :=
  term_call (TermWrite x)
    (if negb (dumpReceived c)
     then set_dumpReceived true (term_call TermReset c)
     else c).

(** What one handler run does to the surface and the flag. *)
Inductive surface_step (c c' : Conn) : Prop :=
| surface_same :
    calls (term c') = calls (term c) -> dumpReceived c' = dumpReceived c ->
    surface_step c c'
| surface_notice s :
    calls (term c') = calls (term c) ++ [TermWriteln s] ->
    dumpReceived c' = dumpReceived c ->
    surface_step c c'
| surface_frame x c0 :
    calls (term c0) = calls (term c) -> dumpReceived c0 = dumpReceived c ->
    c' = write_frame x c0 ->
    surface_step c c'.

(** The invariant of the connection: before the first frame the flag is
    down and the surface has seen neither a reset nor a frame; after it
    the flag is up and the log has the shape of [reset_once]. *)
Definition dump_inv (c : Conn) : Prop :=
  reset_once (calls (term c))
  /\ dumpReceived c = bool_decide (written (calls (term c)) <> [])
  /\ resets (calls (term c)) = (if dumpReceived c then 1 else 0)%nat.

(** *** Reading a run of events *)

Section Traffic.

Variable JSON_parse : string -> option Js.value.

(** The chunk a message event brings for the surface, if any: the bytes
    of a binary frame, or the text of a string frame that is not a
    session-state message. *)
Definition frame_chunk (data : Ws.MessageData) : option Chunk :=
  match data with
  | Ws.ArrayBufferData bytes => Some (Bytes bytes)
  | Ws.BlobData bytes => Some (Bytes bytes)
  | Ws.StringData s =>
      match session_state_message JSON_parse s with
      | Some _ => None
      | None => Some (Text s)
      end
  end.

Definition payloads (es : list Event) : list Chunk :=
  omap (fun e => match e with
                 | Message data => frame_chunk data
                 | _ => None
                 end) es.

End Traffic.

(** The byte chunks among the chunks written, and the blobs a run of
    events delivers, each in order. *)
Definition binary_written (l : list TermCall) : list (list byte) :=
  omap (fun x => match x with
                 | Bytes bytes => Some bytes
                 | Text _ => None
                 end) (written l).

Definition blobs_arrived (es : list Event) : list (list byte) :=
  omap (fun e => match e with
                 | Message (Ws.BlobData bytes) => Some bytes
                 | _ => None
                 end) es.

(** An event of a run in which blob reads complete in the order the
    blobs arrived and no frame arrives as an [ArrayBuffer]. *)
Definition in_arrival_order (e : Event) : bool :=
  match e with
  | BlobRead k => bool_decide (k = 0%nat)
  | Message (Ws.ArrayBufferData _) => false
  | _ => true
  end.

(** The input the surface produced while the socket was open, [open]
    telling whether it is at the start. *)
Fixpoint typed_while_open (open : bool) (es : list Event) : list string :=
  match es with
  | [] => []
  | Open _ :: rest => typed_while_open true rest
  | Close :: rest => typed_while_open false rest
  | Data data :: rest =>
      (if open then [data] else []) ++ typed_while_open open rest
  | _ :: rest => typed_while_open open rest
  end.

Definition data_sent (l : list Sent) : list string :=
  omap (fun x => match x with
                 | SentData data => Some data
                 | SentResize _ _ => None
                 end) l.

(** The session states the message events of a run announce, in
    order. *)
Definition announced (JSON_parse : string -> option Js.value) (es : list Event)
    : list (option Js.value * TerminalStatus) :=
  omap (fun e => match e with
                 | Message (Ws.StringData s) =>
                     match session_state_message JSON_parse s with
                     | Some msg => Some (mapTool (Js.get msg "tool"), status_of msg)
                     | None => None
                     end
                 | _ => None
                 end) es.

End TerminalView.

(** ** ChatView.tsx: the chat stream client (the handler with progress frames) *)

Module ChatView.

Inductive Role := user | assistant.

(** [ChatMessage]; [progress] is optional, [None] is [undefined]. *)
Record ChatMessage := mkMessage {
  role : Role;
  content : string;
  progress : option string
}.

Definition is_assistant (m : ChatMessage) : bool :=
  match role m with
  | assistant => true
  | user => false
  end.

(** [msg.progress] in a boolean position, as the view and the [done]
    branch read it: a label shows when it is a non-empty string. *)
Definition shows_progress (m : ChatMessage) : bool :=
  match progress m with
  | Some p => Js.truthy p
  | None => false
  end.

Definition CONTEXT_MESSAGE_LIMIT : Z := 20.

Definition buildPromptWithContext (messages : list ChatMessage)
    (newUserMessage : string) : string :=
  if (length messages =? 0)%nat then newUserMessage
  else
    let recent := Js.slice (- CONTEXT_MESSAGE_LIMIT) messages in
    let lines :=
      map (fun m =>
             match role m with
             | user => "User: " +:+ content m
             | assistant => "Assistant: " +:+ content m
             end) recent in
    "Previous conversation:" +:+ Js.LF +:+ Js.LF
      +:+ Js.join (Js.LF +:+ Js.LF) lines
      +:+ Js.LF +:+ Js.LF +:+ "User: " +:+ newUserMessage.

(** The socket held by [wsRef.current]: its state and the payloads given
    to [send], oldest first. *)
Record Socket := mkSocket {
  readyState : Ws.ReadyState;
  sent : list string
}.

(** The component's state hooks and its ref. *)
Record Chat := mkChat {
  messages : list ChatMessage;
  input : string;
  connected : bool;
  streaming : bool;
  wsRef : option Socket
}.

Definition setMessages (f : list ChatMessage -> list ChatMessage) (st : Chat) : Chat :=
  mkChat (f (messages st)) (input st) (connected st) (streaming st) (wsRef st).

Definition setStreaming (b : bool) (st : Chat) : Chat :=
  mkChat (messages st) (input st) (connected st) b (wsRef st).

Definition setInput (s : string) (st : Chat) : Chat :=
  mkChat (messages st) s (connected st) (streaming st) (wsRef st).

(** [next[next.length - 1] = m] on a copy of [prev]. *)
Definition set_last (m : ChatMessage) (prev : list ChatMessage) : list ChatMessage :=
  <[(length prev - 1)%nat := m]> prev.

(** The updater of [appendToAssistant]. *)
Definition append_updater (text : string) (prev : list ChatMessage) : list ChatMessage :=
  match last prev with
  | None => [mkMessage assistant text None]
  | Some l =>
      if negb (is_assistant l)
      then prev ++ [mkMessage assistant text None]
      else set_last (mkMessage (role l) (content l +:+ text) None) prev
  end.

Definition appendToAssistant (text : string) (st : Chat) : Chat :=
  if negb (Js.truthy text) then st
  else setMessages (append_updater text) st.

(** The updater of the [done] branch. *)
Definition done_updater (prev : list ChatMessage) : list ChatMessage :=
  match last prev with
  | Some l =>
      if is_assistant l && shows_progress l
      then set_last (mkMessage (role l) (content l) None) prev
      else prev
  | None => prev
  end.

(** The updater of the [error] branch. *)
Definition error_updater (e : string) (prev : list ChatMessage) : list ChatMessage :=
  match last prev with
  | Some l =>
      if is_assistant l
      then set_last
             (mkMessage (role l)
                (content l +:+ (if Js.truthy (content l) then Js.LF +:+ Js.LF else EmptyString)
                   +:+ "Error: " +:+ e)
                None) prev
      else prev ++ [mkMessage assistant ("Error: " +:+ e) None]
  | None => prev ++ [mkMessage assistant ("Error: " +:+ e) None]
  end.

(** The updater of the [progress] branch. *)
Definition progress_updater (p : string) (prev : list ChatMessage) : list ChatMessage :=
  match last prev with
  | Some l =>
      if is_assistant l
      then set_last (mkMessage (role l) (content l) (Some p)) prev
      else prev
  | None => prev
  end.

Section Handlers.

(** [JSON.parse] ([None]: it throws) and [String.prototype.trim]. *)
Variable JSON_parse : string -> option Js.value.
Variable trim : string -> string.

(** [ws.onmessage].  On [null] the read of [j.done] throws outside the
    [try]: the handler ends there and no state was set. *)
Definition ws_onmessage (data : Ws.MessageData) (st : Chat) : Chat :=
  match data with
  | Ws.StringData s =>
      match JSON_parse s with
      | None => appendToAssistant s st
      | Some Js.Null => st
      | Some j =>
          if Js.is_true (Js.get j "done")
          then setStreaming false (setMessages done_updater st)
          else
            match Js.as_string (Js.get j "error") with
            | Some e => setStreaming false (setMessages (error_updater e) st)
            | None =>
                match Js.as_string (Js.get j "progress") with
                | Some p => setMessages (progress_updater p) st
                | None =>
                    match Js.as_string (Js.get j "text") with
                    | Some t => appendToAssistant t st
                    | None => st
                    end
                end
            end
      end
  | _ => st
  end.

(** [sendMessage], called from the render whose [input] and [messages]
    it closes over. *)
Definition sendMessage (st : Chat) : Chat :=
  let text := trim (input st) in
  match negb (Js.truthy text), wsRef st with
  | true, _ => st
  | false, None => st
  | false, Some ws =>
      if negb (Ws.is_open (readyState ws)) then st
      else
        let prompt := buildPromptWithContext (messages st) text in
        let st' := setInput EmptyString st in
        let st' :=
          setMessages
            (fun prev => prev ++ [mkMessage user text None; mkMessage assistant EmptyString None])
            st' in
        let st' := setStreaming true st' in
        mkChat (messages st') (input st') (connected st') (streaming st')
          (Some (mkSocket (readyState ws) (sent ws ++ [prompt])))
  end.

(** The frames of a channel, in the order they arrive. *)
Definition receive (st : Chat) (frames : list Ws.MessageData) : Chat :=
  fold_left (fun st d => ws_onmessage d st) frames st.

End Handlers.

(** The label a turn's line starts with in the composed prompt. *)
Definition role_label (r : Role) : string :=
  match r with
  | user => "User: "
  | assistant => "Assistant: "
  end.

(** The shapes of a parsed frame, by the branch of [ws.onmessage] that
    takes it (the tests are made in this order). *)
Definition done_frame (j : Js.value) : Prop :=
  j <> Js.Null /\ Js.is_true (Js.get j "done") = true.

Definition error_frame (j : Js.value) (e : string) : Prop :=
  j <> Js.Null /\ Js.is_true (Js.get j "done") = false
  /\ Js.as_string (Js.get j "error") = Some e.

Definition progress_frame (j : Js.value) (p : string) : Prop :=
  j <> Js.Null /\ Js.is_true (Js.get j "done") = false
  /\ Js.as_string (Js.get j "error") = None
  /\ Js.as_string (Js.get j "progress") = Some p.

Definition text_frame (j : Js.value) (t : string) : Prop :=
  j <> Js.Null /\ Js.is_true (Js.get j "done") = false
  /\ Js.as_string (Js.get j "error") = None
  /\ Js.as_string (Js.get j "progress") = None
  /\ Js.as_string (Js.get j "text") = Some t.

(** *** The socket's other handlers and a run of the component *)

Definition setConnected (b : bool) (st : Chat) : Chat :=
  mkChat (messages st) (input st) b (streaming st) (wsRef st).

(** The platform moving the socket held by [wsRef] to another state. *)
Definition set_readyState (r : Ws.ReadyState) (st : Chat) : Chat :=
  mkChat (messages st) (input st) (connected st) (streaming st)
    (match wsRef st with
     | Some ws => Some (mkSocket r (sent ws))
     | None => None
     end).

(** [ws.onopen], [ws.onclose] and [ws.onerror]. *)
Definition ws_onopen (st : Chat) : Chat := setConnected true st.

Definition ws_onclose (st : Chat) : Chat := setStreaming false (setConnected false st).

Definition ws_onerror (st : Chat) : Chat := setConnected false st.

(** What can happen to the mounted component: the socket's events, a
    change of the input box ([onChange={setInput}]) and a submit
    ([onSubmit={sendMessage}]). *)
Inductive Event :=
| Opened
| Closed
| Errored
| Received (data : Ws.MessageData)
| Typed (value : string)
| Submitted.

Section Lifecycle.

Variable JSON_parse : string -> option Js.value.
Variable trim : string -> string.

Definition step (st : Chat) (e : Event) : Chat :=
  match e with
  | Opened => ws_onopen (set_readyState Ws.OPEN st)
  | Closed => ws_onclose (set_readyState Ws.CLOSED st)
  | Errored => ws_onerror st
  | Received data => ws_onmessage JSON_parse data st
  | Typed value => setInput value st
  | Submitted => sendMessage trim st
  end.

Definition run (st : Chat) (es : list Event) : Chat := fold_left step es st.


End Lifecycle.

(** The component as the effect on mount leaves it: no turn, the socket
    created and connecting. *)
Definition mounted : Chat :=
  mkChat [] EmptyString false false (Some (mkSocket Ws.CONNECTING [])).

(** Roles that alternate and end with the assistant: an optional leading
    assistant turn, then user and assistant turns in pairs. *)
Inductive exchange : list Role -> Prop :=
| exchange_nil : exchange []
| exchange_lead : exchange [assistant]
| exchange_pair rs : exchange rs -> exchange (rs ++ [user; assistant]).

Fixpoint user_turns (l : list ChatMessage) : nat :=
  match l with
  | [] => 0%nat
  | m :: rest => ((if is_assistant m then 0 else 1) + user_turns rest)%nat
  end.

(** What a frame may do to the turns: nothing, add an assistant turn
    after a list that does not end in one, or replace a trailing
    assistant turn by an assistant turn. *)
Definition turns_effect (prev next : list ChatMessage) : Prop :=
  next = prev
  \/ (exists m,
        next = prev ++ [m] /\ is_assistant m = true
        /\ forall l, last prev = Some l -> is_assistant l = false)
  \/ (exists earlier l l',
        prev = earlier ++ [l] /\ next = earlier ++ [l']
        /\ is_assistant l = true /\ is_assistant l' = true).


(** The strings of a list, one after the other. *)
Fixpoint concat_all (l : list string) : string :=
  match l with
  | [] => EmptyString
  | x :: rest => x +:+ concat_all rest
  end.

End ChatView.

(** ** components/chat/ChatView.tsx: the handler without progress frames

    The copy of the component under [components/chat] reads only [done]
    and [error]; every other string frame is appended as it arrived. *)

Module ChatViewLegacy.

Inductive Role := user | assistant.

Record ChatMessage := mkMessage {
  role : Role;
  content : string
}.

Definition is_assistant (m : ChatMessage) : bool :=
  match role m with
  | assistant => true
  | user => false
  end.

Definition CONTEXT_MESSAGE_LIMIT : Z := 20.

Definition buildPromptWithContext (messages : list ChatMessage)
    (newUserMessage : string) : string :=
  if (length messages =? 0)%nat then newUserMessage
  else
    let recent := Js.slice (- CONTEXT_MESSAGE_LIMIT) messages in
    let lines :=
      map (fun m =>
             match role m with
             | user => "User: " +:+ content m
             | assistant => "Assistant: " +:+ content m
             end) recent in
    "Previous conversation:" +:+ Js.LF +:+ Js.LF
      +:+ Js.join (Js.LF +:+ Js.LF) lines
      +:+ Js.LF +:+ Js.LF +:+ "User: " +:+ newUserMessage.

Record Chat := mkChat {
  messages : list ChatMessage;
  input : string;
  connected : bool;
  streaming : bool;
  wsRef : option ChatView.Socket
}.

Definition setMessages (f : list ChatMessage -> list ChatMessage) (st : Chat) : Chat :=
  mkChat (f (messages st)) (input st) (connected st) (streaming st) (wsRef st).

Definition setStreaming (b : bool) (st : Chat) : Chat :=
  mkChat (messages st) (input st) (connected st) b (wsRef st).

Definition set_last (m : ChatMessage) (prev : list ChatMessage) : list ChatMessage :=
  <[(length prev - 1)%nat := m]> prev.

Definition error_updater (e : string) (prev : list ChatMessage) : list ChatMessage :=
  match last prev with
  | Some l =>
      if is_assistant l
      then set_last
             (mkMessage (role l)
                (content l +:+ (if Js.truthy (content l) then Js.LF +:+ Js.LF else EmptyString)
                   +:+ "Error: " +:+ e)) prev
      else prev ++ [mkMessage assistant ("Error: " +:+ e)]
  | None => prev ++ [mkMessage assistant ("Error: " +:+ e)]
  end.

Definition chunk_updater (s : string) (prev : list ChatMessage) : list ChatMessage :=
  match last prev with
  | None => [mkMessage assistant s]
  | Some l =>
      if negb (is_assistant l)
      then prev ++ [mkMessage assistant s]
      else set_last (mkMessage (role l) (content l +:+ s)) prev
  end.

Section Handlers.

Variable JSON_parse : string -> option Js.value.
Variable trim : string -> string.

(** [ws.onmessage]: [j?.done] and [j?.error] are [undefined] on [null]. *)
Definition ws_onmessage (data : Ws.MessageData) (st : Chat) : Chat :=
  match data with
  | Ws.StringData s =>
      match JSON_parse s with
      | Some j =>
          if Js.is_true (Js.get j "done") then setStreaming false st
          else
            match Js.as_string (Js.get j "error") with
            | Some e => setStreaming false (setMessages (error_updater e) st)
            | None => setMessages (chunk_updater s) st
            end
      | None => setMessages (chunk_updater s) st
      end
  | _ => st
  end.

Definition sendMessage (st : Chat) : Chat :=
  let text := trim (input st) in
  match negb (Js.truthy text), wsRef st with
  | true, _ => st
  | false, None => st
  | false, Some ws =>
      if negb (Ws.is_open (ChatView.readyState ws)) then st
      else
        let prompt := buildPromptWithContext (messages st) text in
        mkChat
          (messages st ++ [mkMessage user text; mkMessage assistant EmptyString])
          EmptyString (connected st) true
          (Some (ChatView.mkSocket (ChatView.readyState ws) (ChatView.sent ws ++ [prompt])))
  end.

End Handlers.

Section Chunks.

Variable JSON_parse : string -> option Js.value.

Definition receive (st : Chat) (frames : list Ws.MessageData) : Chat :=
  fold_left (fun st d => ws_onmessage JSON_parse d st) frames st.

(** A string frame this handler takes for a streamed text chunk: one
    that does not parse, or parses to a value with neither [done: true]
    nor a string [error]. *)
Definition raw_chunk (s : string) : bool :=
  match JSON_parse s with
  | None => true
  | Some j =>
      negb (Js.is_true (Js.get j "done"))
      && match Js.as_string (Js.get j "error") with
         | Some _ => false
         | None => true
         end
  end.

End Chunks.

End ChatViewLegacy.

(** ** terminal-types.ts: the tool themes *)

Module ToolThemes.
Import TerminalTypes.

Record ToolTheme := mkTheme {
  accent : string;
  accentFg : string;
  bg : string;
  headerBg : string;
  borderColor : string;
  label : string;
  cursorColor : string;
  selectionBg : string
}.

Definition toolThemes (t : ToolType) : ToolTheme :=
  match t with
  | claude =>
      mkTheme "#d97706" "#fef3c7" "#0f0c08" "#1a1508" "#d9770640" "Claude"
        "#d97706" "#d9770633"
  | gemini =>
      mkTheme "#3b82f6" "#dbeafe" "#080a10" "#0c1020" "#3b82f640" "Gemini"
        "#3b82f6" "#3b82f633"
  | codex =>
      mkTheme "#10b981" "#d1fae5" "#080f0c" "#0c1a14" "#10b98140" "Codex"
        "#10b981" "#10b98133"
  | generic =>
      mkTheme "#64748b" "#e2e8f0" "#0c0c14" "#14141e" "#64748b40" "Terminal"
        "#64748b" "#64748b33"
  end.

Definition TOOL_OPTIONS : list ToolType := [generic; claude; gemini; codex].

End ToolThemes.

(** ** The sessions API: list items *)

Module SessionListItem.

Record t := mk {
  session_id : string;
  tool : string;
  status : string;
  created_at : Z;
  project_path : option string
}.

End SessionListItem.

(** ** App.tsx: the session registry *)

Module App.
Import TerminalTypes.

(** The state hooks of [App] that the session actions read and set. *)
Record State := mkState {
  viewMode : ViewMode;
  groups : list TerminalGroup.t;
  activeTabId : option string;
  maximizedSession : option string
}.

(** How an awaited request to the sessions API settles. *)
Inductive Settled := Resolved | Rejected.

Definition DEFAULT_GROUP_ID : string := "default".

(** [groups.flatMap((g) => g.sessions)]. *)
Definition all_sessions (gs : list TerminalGroup.t) : list TerminalSession.t :=
  flat_map TerminalGroup.sessions gs.

Definition with_sessions (g : TerminalGroup.t) (l : list TerminalSession.t) : TerminalGroup.t :=
  TerminalGroup.mk (TerminalGroup.id g) (TerminalGroup.label g) (TerminalGroup.color g)
    l (TerminalGroup.collapsed g).

(** [{ ...s, tool, status }]. *)
Definition with_state (s : TerminalSession.t) (tool : ToolType) (status : TerminalStatus)
    : TerminalSession.t :=
  TerminalSession.mk (TerminalSession.id s) (TerminalSession.name s)
    (TerminalSession.group s) tool status (TerminalSession.command s)
    (TerminalSession.cwd s) (TerminalSession.startedAt s) (TerminalSession.createdAt s).

(** [closeSession].  [deleted] is how [await deleteSession(sessionId)]
    settles; [seen] is the [groups] of the render the callback closes
    over, from which the fallback tab is picked. *)
Definition closeSession (deleted : Settled) (seen : list TerminalGroup.t)
    (sessionId : string) (st : State) : State :=
  match deleted with
  | Rejected => st
  | Resolved =>
      let groups' :=
        map (fun g =>
               with_sessions g
                 (filter (fun s => TerminalSession.id s <> sessionId) (TerminalGroup.sessions g)))
            (groups st) in
      let active' :=
        match activeTabId st with
        | None => None
        | Some prev =>
            if bool_decide (prev <> sessionId) then Some prev
            else
              let remaining :=
                filter (fun s => TerminalSession.id s <> sessionId) (all_sessions seen) in
              TerminalSession.id <$> head remaining
        end in
      let maximized' :=
        match maximizedSession st with
        | Some m => if bool_decide (m = sessionId) then None else Some m
        | None => None
        end in
      mkState (viewMode st) groups' active' maximized'
  end.

(** The state updates of [handleAddCli] once the session is created. *)
Definition addSession (session : TerminalSession.t) (st : State) : State :=
  mkState (viewMode st)
    (map (fun g =>
            if bool_decide (TerminalGroup.id g = DEFAULT_GROUP_ID)
            then with_sessions g (TerminalGroup.sessions g ++ [session])
            else g)
         (groups st))
    (Some (TerminalSession.id session))
    (maximizedSession st).

Definition toggleMaximize (sessionId : string) (st : State) : State :=
  mkState (viewMode st) (groups st) (activeTabId st)
    (match maximizedSession st with
     | Some prev => if bool_decide (prev = sessionId) then None else Some sessionId
     | None => Some sessionId
     end).

Definition setSessionState (sessionId : string) (tool : ToolType)
    (status : TerminalStatus) (st : State) : State :=
  mkState (viewMode st)
    (map (fun g =>
            with_sessions g
              (map (fun s =>
                      if bool_decide (TerminalSession.id s = sessionId)
                      then with_state s tool status
                      else s)
                   (TerminalGroup.sessions g)))
         (groups st))
    (activeTabId st) (maximizedSession st).

(** Two sessions that agree on every field but [tool] and [status]. *)
Definition same_identity (s s' : TerminalSession.t) : Prop :=
  TerminalSession.id s' = TerminalSession.id s
  /\ TerminalSession.name s' = TerminalSession.name s
  /\ TerminalSession.group s' = TerminalSession.group s
  /\ TerminalSession.command s' = TerminalSession.command s
  /\ TerminalSession.cwd s' = TerminalSession.cwd s
  /\ TerminalSession.startedAt s' = TerminalSession.startedAt s
  /\ TerminalSession.createdAt s' = TerminalSession.createdAt s.

(** Two groups that agree on every field but [sessions]. *)
Definition same_group (g g' : TerminalGroup.t) : Prop :=
  TerminalGroup.id g' = TerminalGroup.id g
  /\ TerminalGroup.label g' = TerminalGroup.label g
  /\ TerminalGroup.color g' = TerminalGroup.color g
  /\ TerminalGroup.collapsed g' = TerminalGroup.collapsed g.

(** [DEFAULT_GROUPS] and the state [App] starts in. *)
Definition DEFAULT_GROUPS : list TerminalGroup.t :=
  [TerminalGroup.mk DEFAULT_GROUP_ID "CLI" "#64748b" [] None].

Definition initial : State := mkState tabs DEFAULT_GROUPS None None.

(** A session as [sessionListItemToSession] builds it for a tool created
    at second [created_at] with no project path. *)
Definition sample_session (id name command : string) (tool : ToolType) (created_at : Z)
    : TerminalSession.t :=
  TerminalSession.mk id name DEFAULT_GROUP_ID tool running command "—"
    (created_at * 1000) (Some created_at).

(** *** Sessions from the API, and the other actions of the registry *)

(** [DEFAULT_GROUPS[0]]; the list is not empty. *)
Definition DEFAULT_GROUPS_0 : TerminalGroup.t :=
  match DEFAULT_GROUPS with
  | g :: _ => g
  | [] => TerminalGroup.mk EmptyString EmptyString EmptyString [] None
  end.

Section Api.

(** [String.prototype.toLowerCase]. *)
Variable toLowerCase : string -> string.

Definition sessionToName (tool : string) : string :=
  let t := toLowerCase tool in
  if String.eqb t "claude" then "Claude"
  else if String.eqb t "gemini" then "Gemini"
  else if String.eqb t "codex" then "Codex"
  else "Terminal".

Definition mapApiStatus (s : string) : TerminalStatus :=
  if String.eqb s "running" then running
  else if String.eqb s "exited" then stopped
  else idle.

Definition mapApiTool (s : string) : ToolType :=
  let t := toLowerCase s in
  if String.eqb t "claude" then claude
  else if String.eqb t "gemini" then gemini
  else if String.eqb t "codex" then codex
  else if String.eqb t "generic" then generic
  else generic.

Definition sessionListItemToSession (item : SessionListItem.t) : TerminalSession.t :=
  TerminalSession.mk
    (SessionListItem.session_id item)
    (sessionToName (SessionListItem.tool item))
    DEFAULT_GROUP_ID
    (mapApiTool (SessionListItem.tool item))
    (mapApiStatus (SessionListItem.status item))
    (SessionListItem.tool item)
    (match SessionListItem.project_path item with
     | Some path => path
     | None => "—"
     end)
    (SessionListItem.created_at item * 1000)
    (Some (SessionListItem.created_at item)).

(** The state updates of the load effect once [getSessions] resolves
    with [list]. *)
Definition loadSessions (list : list SessionListItem.t) (st : State) : State :=
  let sessions := map sessionListItemToSession list in
  let g :=
    match List.find (fun x => String.eqb (TerminalGroup.id x) DEFAULT_GROUP_ID) (groups st) with
    | Some g => g
    | None => DEFAULT_GROUPS_0
    end in
  mkState (viewMode st)
    [with_sessions g sessions]
    (match sessions with
     | [] => None
     | first :: _ =>
         match activeTabId st with
         | Some prev =>
             if Js.truthy prev
                && existsb (fun s => String.eqb (TerminalSession.id s) prev) sessions
             then Some prev
             else Some (TerminalSession.id first)
         | None => Some (TerminalSession.id first)
         end
     end)
    (maximizedSession st).

End Api.

(** A click on a session's tab. *)
Definition selectTab (sessionId : string) (st : State) : State :=
  mkState (viewMode st) (groups st) (Some sessionId) None.

(** The footer's "Exit Maximized". *)
Definition exitMaximized (st : State) : State :=
  mkState (viewMode st) (groups st) (activeTabId st) None.

Definition setViewMode (mode : ViewMode) (st : State) : State :=
  mkState mode (groups st) (activeTabId st) (maximizedSession st).

(** The values each render derives from the state. *)
Definition activeSession (st : State) : option TerminalSession.t :=
  match activeTabId st with
  | Some a =>
      List.find (fun s => String.eqb (TerminalSession.id s) a) (all_sessions (groups st))
  | None => None
  end.

Definition maximizedSessionData (st : State) : option TerminalSession.t :=
  match maximizedSession st with
  | Some m =>
      if Js.truthy m
      then List.find (fun s => String.eqb (TerminalSession.id s) m) (all_sessions (groups st))
      else None
  | None => None
  end.

Definition is_running (s : TerminalSession.t) : bool :=
  match TerminalSession.status s with
  | running => true
  | _ => false
  end.

Definition totalSessions (st : State) : nat :=
  fold_left (fun sum g => (sum + length (TerminalGroup.sessions g))%nat) (groups st) 0%nat.

Definition runningSessions (st : State) : nat :=
  fold_left
    (fun sum g => (sum + length (List.filter is_running (TerminalGroup.sessions g)))%nat)
    (groups st) 0%nat.

(** What the user and the backend can make the registry do. *)
Inductive Action :=
| Loaded (list : list SessionListItem.t)
| Added (session : TerminalSession.t)
| CloseAsked (deleted : Settled) (sessionId : string)
| StateReported (sessionId : string) (tool : ToolType) (status : TerminalStatus)
| TabClicked (sessionId : string)
| MaximizeClicked (sessionId : string)
| MaximizeLeft
| ViewModeChosen (mode : ViewMode).

(** One action, with the handlers seeing the current session list. *)
Definition act (toLowerCase : string -> string) (st : State) (a : Action) : State :=
  match a with
  | Loaded list => loadSessions toLowerCase list st
  | Added session => addSession session st
  | CloseAsked deleted sessionId => closeSession deleted (groups st) sessionId st
  | StateReported sessionId tool status => setSessionState sessionId tool status st
  | TabClicked sessionId => selectTab sessionId st
  | MaximizeClicked sessionId => toggleMaximize sessionId st
  | MaximizeLeft => exitMaximized st
  | ViewModeChosen mode => setViewMode mode st
  end.

Definition session_ids (st : State) : list string :=
  TerminalSession.id <$> all_sessions (groups st).

(** The states the registry can be in: a tab can be clicked only for a
    session that is listed. *)
Inductive reachable (toLowerCase : string -> string) : State -> Prop :=
| reachable_initial : reachable toLowerCase initial
| reachable_act st a :
    reachable toLowerCase st ->
    (forall sessionId, a = TabClicked sessionId -> sessionId ∈ session_ids st) ->
    reachable toLowerCase (act toLowerCase st a).

(** One group, the default one; a tab is selected exactly when there are
    sessions, and the tab selected is a listed session. *)
Definition registry_inv (st : State) : Prop :=
  (exists g, groups st = [g] /\ TerminalGroup.id g = DEFAULT_GROUP_ID)
  /\ (activeTabId st = None <-> all_sessions (groups st) = [])
  /\ (forall a, activeTabId st = Some a -> a ∈ session_ids st).

End App.

(** ** ws-url.ts and the sessions API *)

Module WsUrl.

(** [window.location], as far as the two functions read it. *)
Record Location := mkLocation {
  protocol : string;
  host : string;
  origin : string
}.

(** [window] is [None] where [typeof window === "undefined"]. *)
Definition getWebSocketUrl (window : option Location) (path : string) : string :=
  match window with
  | None => "ws://127.0.0.1:5182" +:+ path
  | Some location =>
      let protocol := if String.eqb (protocol location) "https:" then "wss:" else "ws:" in
      let host := host location in
      protocol +:+ "//" +:+ host +:+ path
  end.

Definition getBaseUrl (window : option Location) : string :=
  match window with
  | None => "http://127.0.0.1:5182"
  | Some location => origin location
  end.

(** The location of a page served over http or https: its origin is the
    protocol, two slashes and the host. *)
Definition web_page (location : Location) : Prop :=
  (protocol location = "http:" \/ protocol location = "https:")
  /\ origin location = protocol location +:+ "//" +:+ host location.

End WsUrl.

Module SessionsApi.

(** A response as [deleteSession] reads it; [ok] is the platform's:
    the status is in the range 200 to 299. *)
Record Response := mkResponse {
  status : Z;
  text : string
}.

Definition ok (res : Response) : bool :=
  (200 <=? status res) && (status res <=? 299).

(** How the awaited [fetch] settles: it rejects, or resolves with a
    response. *)
Inductive Fetched :=
| Failed
| Responded (res : Response).

(** [deleteSession]: [Rejected] where it throws. *)
Definition deleteSession (fetched : Fetched) : App.Settled :=
  match fetched with
  | Failed => App.Rejected
  | Responded res =>
      if negb (ok res) && negb (status res =? 204) then App.Rejected
      else App.Resolved
  end.

End SessionsApi.

(** ** MobileInputBar.tsx: shortcuts and the prompt overlay *)

Module MobileInputBar.






Section Handlers.

Variable trim : string -> string.








End Handlers.


End MobileInputBar.

(** ** Sample frames

    A few frames of the wire format with the values [JSON.parse] gives
    them, and [trim] on ASCII text, to run the handlers on. *)

Module Wire.

Definition DQ : string := String (ascii_of_nat 34) EmptyString.

(** A JSON string literal (of a text that needs no escape). *)
Definition str (s : string) : string := DQ +:+ s +:+ DQ.

(** A JSON object from its members' keys and value texts. *)
Definition object (members : list (string * string)) : string :=
  "{" +:+ Js.join "," (map (fun kv => str (fst kv) +:+ ":" +:+ snd kv) members) +:+ "}".

Definition running_claude : string :=
  object [("type", str "running"); ("tool", str "claude")].
Definition exited_zero : string :=
  object [("type", str "exited"); ("tool", str "claude"); ("exit_code", "0")].
Definition exited_one : string :=
  object [("type", str "exited"); ("tool", str "claude"); ("exit_code", "1")].
Definition exited_bare : string :=
  object [("type", str "exited"); ("tool", str "claude")].
Definition progress_thinking : string := object [("progress", str "Thinking...")].
Definition text_hi : string := object [("text", str "Hi")].
Definition text_empty : string := object [("text", str EmptyString)].
Definition done_true : string := object [("done", "true")].
Definition error_timeout : string := object [("error", str "timeout")].

Definition samples : list (string * Js.value) :=
  [ (running_claude, Js.Obj [("type", Js.Str "running"); ("tool", Js.Str "claude")]);
    (exited_zero,
     Js.Obj [("type", Js.Str "exited"); ("tool", Js.Str "claude"); ("exit_code", Js.Num 0%float)]);
    (exited_one,
     Js.Obj [("type", Js.Str "exited"); ("tool", Js.Str "claude"); ("exit_code", Js.Num 1%float)]);
    (exited_bare, Js.Obj [("type", Js.Str "exited"); ("tool", Js.Str "claude")]);
    (progress_thinking, Js.Obj [("progress", Js.Str "Thinking...")]);
    (text_hi, Js.Obj [("text", Js.Str "Hi")]);
    (text_empty, Js.Obj [("text", Js.Str EmptyString)]);
    (done_true, Js.Obj [("done", Js.Bool true)]);
    (error_timeout, Js.Obj [("error", Js.Str "timeout")]) ].

(** [JSON.parse] on the sample frames; any other text is taken not to
    parse. *)
Definition parse (s : string) : option Js.value :=
  snd <$> List.find (fun kv => String.eqb (fst kv) s) samples.

Definition is_space (a : ascii) : bool :=
  let n := nat_of_ascii a in
  ((9 <=? n) && (n <=? 13) || (n =? 32))%nat.

Fixpoint trim_start (s : string) : string :=
  match s with
  | EmptyString => EmptyString
  | String a rest => if is_space a then trim_start rest else s
  end.

Fixpoint trim_end (s : string) : string :=
  match s with
  | EmptyString => EmptyString
  | String a rest =>
      match trim_end rest with
      | EmptyString => if is_space a then EmptyString else String a EmptyString
      | kept => String a kept
      end
  end.

(** [String.prototype.trim] on ASCII text. *)
Definition trim (s : string) : string := trim_end (trim_start s).

(** [String.prototype.toLowerCase] on ASCII text. *)
Fixpoint lower (s : string) : string :=
  match s with
  | EmptyString => EmptyString
  | String a rest =>
      let n := nat_of_ascii a in
      String (if ((65 <=? n) && (n <=? 90))%nat then ascii_of_nat (n + 32) else a)
        (lower rest)
  end.

End Wire.

(** * Properties *)

(** ** The terminal stream *)

Section TerminalStream.
Import TerminalTypes TerminalView.

Variable JSON_parse : string -> option Js.value.

Lemma resets_app l1 l2 : resets (l1 ++ l2) = (resets l1 + resets l2)%nat.
Proof.
  induction l1 as [|k l1 IH]; simpl; [done|].
  destruct k; simpl; rewrite IH; done.
Qed.

Lemma written_app l1 l2 : written (l1 ++ l2) = written l1 ++ written l2.
Proof.
  induction l1 as [|k l1 IH]; simpl; [done|].
  destruct k; simpl; rewrite IH; done.
Qed.

Lemma sendResize_surface fit c :
  calls (term (sendResize fit c)) = calls (term c)
  /\ dumpReceived (sendResize fit c) = dumpReceived c.
Proof.
  destruct fit as [|cs rs]; simpl; [done|].
  destruct (Ws.is_open _); done.
Qed.

Lemma step_surface c e : surface_step c (step JSON_parse c e).
Proof.
  destruct e as [fit|data|k| | |data|fit|fit]; simpl.
  - destruct (sendResize_surface fit
      (term_call (TermWriteln (CRLF +:+ "Connected. Receiving history…" +:+ CRLF))
         (set_readyState Ws.OPEN c))) as [Hc Hd].
    eapply surface_notice; unfold ws_onopen; [rewrite Hc|rewrite Hd]; done.
  - destruct data as [bytes|blob|s]; simpl.
    + by apply (surface_frame _ _ (Bytes bytes) c).
    + by apply surface_same.
    + destruct (session_state_message JSON_parse s) as [msg|].
      * apply surface_same; unfold call_onSessionState;
          destruct (hasOnSessionState c); done.
      * by apply (surface_frame _ _ (Text s) c).
  - unfold blob_then. destruct (reading c !! k) as [bytes|]; [|by apply surface_same].
    by apply (surface_frame _ _ (Bytes bytes) (set_reading (delete k (reading c)) c)).
  - by eapply surface_notice.
  - by eapply surface_notice.
  - unfold term_onData. destruct (Ws.is_open _); by apply surface_same.
  - unfold through_refs, fitAndSendResize. simpl.
    destruct fit as [|cs rs]; simpl; [by apply surface_same|].
    destruct (Ws.is_open (readyState c)); by apply surface_same.
  - unfold through_refs, fitWhenActive. simpl.
    destruct fit as [|cs rs]; by apply surface_same.
Qed.

Lemma write_frame_calls x c :
  calls (term (write_frame x c))
  = calls (term c) ++ (if dumpReceived c then [] else [TermReset]) ++ [TermWrite x].
Proof.
  unfold write_frame. destruct (dumpReceived c); simpl; [done|].
  by rewrite <- app_assoc.
Qed.

Lemma write_frame_dump x c : dumpReceived (write_frame x c) = true.
Proof. unfold write_frame. by destruct (dumpReceived c) eqn:E. Qed.

Lemma dump_inv_step c c' : surface_step c c' -> dump_inv c -> dump_inv c'.
Proof.
  intros Hs (Hshape & Hflag & Hcount). unfold dump_inv, reset_once in *.
  destruct Hs as [Hc Hd|s Hc Hd|x c0 Hc0 Hd0 Hx].
  - rewrite Hc, Hd. done.
  - rewrite Hc, Hd, written_app, resets_app. simpl. rewrite app_nil_r, Nat.add_0_r.
    split; [|done].
    destruct (written (calls (term c))) as [|first later] eqn:Hw; [done|].
    destruct Hshape as (pre & rest & Hl & ? & ? & ? & ?).
    exists pre, (rest ++ [TermWriteln s]). rewrite Hl, resets_app, written_app. simpl.
    rewrite <- app_assoc. simpl. rewrite app_nil_r. repeat split; try done. lia.
  - subst c'.
    rewrite write_frame_calls, write_frame_dump, Hc0, Hd0.
    rewrite !written_app, !resets_app.
    destruct (dumpReceived c) eqn:Hd; simpl.
    + symmetry in Hflag. apply bool_decide_eq_true in Hflag.
      destruct (written (calls (term c))) as [|first later] eqn:Hw; [done|].
      destruct Hshape as (pre & rest & Hl & ? & ? & ? & ?).
      simpl. split; [|split; [first [done|symmetry; by apply bool_decide_eq_true_2]|lia]].
      exists pre, (rest ++ [TermWrite x]). rewrite Hl, resets_app, written_app. simpl.
      rewrite <- app_assoc. simpl. repeat split; try done; [lia|congruence].
    + symmetry in Hflag. apply bool_decide_eq_false in Hflag.
      destruct (written (calls (term c))) as [|first later] eqn:Hw;
        [|exfalso; apply Hflag; done].
      simpl. split; [|split; [first [done|symmetry; by apply bool_decide_eq_true_2]|lia]].
      exists (calls (term c)), []. repeat split; try done.
Qed.

Lemma dump_inv_run es : forall c, dump_inv c -> dump_inv (run JSON_parse c es).
Proof.
  induction es as [|e es IH]; intros c Hc; simpl; [done|].
  apply IH. eapply dump_inv_step; [apply step_surface|done].
Qed.

Lemma dump_inv_init cs rs cb : dump_inv (initTerminal cs rs cb).
Proof. repeat split. Qed.

(** C1. Along every run of the handlers from the state [initTerminal]
    leaves, the surface is reset exactly once, right before the first
    frame written to it (a binary frame, or a string frame that is not a
    session-state message), and never again: the reset count is one
    exactly when the dump flag is up, which is exactly when a frame has
    been written.  A binary frame, whether it arrives as an [ArrayBuffer]
    or as a [Blob] whose read completes, is appended to the log, with the
    reset before it only while the flag is down. *)
Theorem terminal_reset_once (cs rs : Z) (cb : bool) (es : list Event) :
  let c := run JSON_parse (initTerminal cs rs cb) es in
  reset_once (calls (term c))
  /\ resets (calls (term c)) = (if dumpReceived c then 1 else 0)%nat
  /\ dumpReceived c = bool_decide (written (calls (term c)) <> [])
  /\ (forall bytes,
        calls (term (ws_onmessage JSON_parse (Ws.ArrayBufferData bytes) c))
        = calls (term c) ++ (if dumpReceived c then [] else [TermReset])
            ++ [TermWrite (Bytes bytes)])
  /\ (forall k bytes,
        reading c !! k = Some bytes ->
        calls (term (blob_then k c))
        = calls (term c) ++ (if dumpReceived c then [] else [TermReset])
            ++ [TermWrite (Bytes bytes)])
  /\ (forall s,
        session_state_message JSON_parse s = None ->
        calls (term (ws_onmessage JSON_parse (Ws.StringData s) c))
        = calls (term c) ++ (if dumpReceived c then [] else [TermReset])
            ++ [TermWrite (Text s)]).
Proof.
  intros c.
  destruct (dump_inv_run es _ (dump_inv_init cs rs cb)) as (Hshape & Hflag & Hcount).
  fold c in Hshape, Hflag, Hcount.
  split; [done|split; [done|split; [done|split; [|split]]]].
  - intros bytes. apply (write_frame_calls (Bytes bytes) c).
  - intros k bytes Hk. unfold blob_then. rewrite Hk.
    apply (write_frame_calls (Bytes bytes) (set_reading (delete k (reading c)) c)).
  - intros s Hs. simpl. rewrite Hs. apply (write_frame_calls (Text s) c).
Qed.

(** The history [72,73] then [33], each frame a [Blob] read before the
    next arrives: one reset, then the two chunks. *)
Example dump_in_two_chunks (fit : Fit) :
  let c := run JSON_parse (initTerminal 80 24 true)
             [Open fit; Message (Ws.BlobData [x48; x49]); BlobRead 0;
              Message (Ws.BlobData [x21]); BlobRead 0] in
  resets (calls (term c)) = 1%nat
  /\ written (calls (term c)) = [Bytes [x48; x49]; Bytes [x21]].
Proof. destruct fit; split; reflexivity. Qed.

Lemma session_state_message_some s msg :
  JSON_parse s = Some msg ->
  Js.is_string (Js.get msg "type") "running" = true
  \/ Js.is_string (Js.get msg "type") "exited" = true ->
  session_state_message JSON_parse s = Some msg.
Proof.
  intros Hp Ht. unfold session_state_message. rewrite Hp.
  destruct msg; try (destruct Ht as [Ht|Ht]; discriminate Ht).
  destruct Ht as [->| ->]; [done|]. by rewrite orb_true_r.
Qed.

(** C2. A string frame that parses to a message of type [running] or
    [exited] makes one call of the callback, with the message's tool and
    the status: [running] for type [running]; [stopped] for type [exited]
    with [exit_code] a number equal to 0; [error] for type [exited] with
    any other [exit_code], in particular with none. *)
Theorem session_status_mapping (c : Conn) (s : string) (msg : Js.value) :
  JSON_parse s = Some msg ->
  Js.is_string (Js.get msg "type") "running" = true
  \/ Js.is_string (Js.get msg "type") "exited" = true ->
  hasOnSessionState c = true ->
  exists status,
    sessionStates (ws_onmessage JSON_parse (Ws.StringData s) c)
    = sessionStates c ++ [(Js.get msg "tool", status)]
    /\ (Js.is_string (Js.get msg "type") "running" = true -> status = running)
    /\ (Js.is_string (Js.get msg "type") "exited" = true ->
        Js.is_number (Js.get msg "exit_code") 0%float = true -> status = stopped)
    /\ (Js.is_string (Js.get msg "type") "exited" = true ->
        Js.is_number (Js.get msg "exit_code") 0%float = false -> status = error)
    /\ (Js.is_string (Js.get msg "type") "exited" = true ->
        Js.get msg "exit_code" = None -> status = error).
Proof.
  intros Hp Ht Hcb. exists (status_of msg).
  simpl. rewrite (session_state_message_some s msg Hp Ht).
  unfold call_onSessionState, mapTool. rewrite Hcb. simpl.
  assert (Hex : Js.is_string (Js.get msg "type") "exited" = true ->
                Js.is_string (Js.get msg "type") "running" = false).
  { unfold Js.is_string. destruct (Js.get msg "type") as [[]|]; try done.
    intros He%String.eqb_eq. subst. done. }
  unfold status_of. repeat split.
  - by intros ->.
  - intros He Hz. by rewrite (Hex He), Hz.
  - intros He Hz. by rewrite (Hex He), Hz.
  - intros He Hn. by rewrite (Hex He), Hn.
Qed.

(** C10. A message of type [running] or [exited] leaves the surface, the
    dump flag and the pending reads as they were; when it arrives before
    the first frame, the next binary frame still gets the reset, whether
    it comes as an [ArrayBuffer] or as a [Blob] that is then read. *)
Theorem state_frame_keeps_dump_pending (c : Conn) (s : string) (msg : Js.value) :
  JSON_parse s = Some msg ->
  Js.is_string (Js.get msg "type") "running" = true
  \/ Js.is_string (Js.get msg "type") "exited" = true ->
  let c' := ws_onmessage JSON_parse (Ws.StringData s) c in
  term c' = term c
  /\ dumpReceived c' = dumpReceived c
  /\ reading c' = reading c
  /\ (dumpReceived c = false ->
      forall bytes,
        let c1 := ws_onmessage JSON_parse (Ws.ArrayBufferData bytes) c' in
        let c2 := blob_then (length (reading c'))
                    (ws_onmessage JSON_parse (Ws.BlobData bytes) c') in
        dumpReceived c1 = true
        /\ calls (term c1) = calls (term c) ++ [TermReset; TermWrite (Bytes bytes)]
        /\ dumpReceived c2 = true
        /\ calls (term c2) = calls (term c) ++ [TermReset; TermWrite (Bytes bytes)]).
Proof.
  intros Hp Ht c'.
  assert (Hc' : term c' = term c /\ dumpReceived c' = dumpReceived c
                /\ reading c' = reading c).
  { unfold c'. simpl. rewrite (session_state_message_some s msg Hp Ht).
    unfold call_onSessionState. by destruct (hasOnSessionState c). }
  destruct Hc' as (Hterm & Hflag & Hreading).
  split; [done|split; [done|split; [done|]]].
  intros Hd bytes. rewrite <- Hflag in Hd. split; [|split; [|split]].
  - apply (write_frame_dump (Bytes bytes) c').
  - change (ws_onmessage JSON_parse (Ws.ArrayBufferData bytes) c')
      with (write_frame (Bytes bytes) c').
    by rewrite write_frame_calls, Hd, Hterm.
  - unfold blob_then. simpl. rewrite list_lookup_middle by done.
    apply (write_frame_dump (Bytes bytes)
             (set_reading (delete (length (reading c')) (reading c' ++ [bytes])) c')).
  - unfold blob_then. simpl. rewrite list_lookup_middle by done.
    change (calls (term (write_frame (Bytes bytes)
              (set_reading (delete (length (reading c')) (reading c' ++ [bytes])) c')))
            = calls (term c) ++ [TermReset; TermWrite (Bytes bytes)]).
    rewrite write_frame_calls. simpl. by rewrite Hd, Hterm.
Qed.

(** C8. A resize frame carries the fitted column count less one and the
    fitted row count, and is sent only on an open socket: [sendResize]
    sends exactly that frame when the fit returns and the socket is open,
    and nothing otherwise; [fitAndSendResize] does the same through the
    refs, with the surface's current size when no fit addon is held.  No
    handler run sends more than one frame, none sends on a socket that is
    not open, and a resize frame it sends carries the surface's columns
    less one and its rows as the run leaves them. *)
Theorem resize_reports_fit_minus_one (fit : Fit) :
  (forall c,
     sent (sendResize fit c)
     = match fit with
       | Fitted cs rs =>
           if Ws.is_open (readyState c) then sent c ++ [SentResize (cs - 1) rs] else sent c
       | FitThrows => sent c
       end)
  /\ (forall v,
       match conn v with
       | None => fitAndSendResize fit v = v
       | Some c =>
           exists c',
             conn (fitAndSendResize fit v) = Some c'
             /\ sent c'
               = match fitAddonRef v, fit with
                 | true, FitThrows => sent c
                 | true, Fitted cs rs =>
                     if Ws.is_open (readyState c)
                     then sent c ++ [SentResize (cs - 1) rs] else sent c
                 | false, _ =>
                     if Ws.is_open (readyState c)
                     then sent c ++ [SentResize (cols (term c) - 1) (rows (term c))]
                     else sent c
                 end
       end)
  /\ (forall c e,
       let c' := step JSON_parse c e in
       sent c' = sent c
       \/ exists x,
            sent c' = sent c ++ [x]
            /\ readyState c' = Ws.OPEN
            /\ forall cs rs,
                 x = SentResize cs rs ->
                 cs = cols (term c') - 1 /\ rs = rows (term c')).
Proof.
  split; [|split].
  - intros c. destruct fit as [|cs rs]; simpl; [done|].
    destruct (Ws.is_open (readyState c)); done.
  - intros [has [c|]]; simpl.
    + unfold fitAndSendResize; simpl.
      destruct has, fit as [|cs rs]; simpl;
        try (destruct (Ws.is_open (readyState c)); simpl);
        eexists; (split; [reflexivity|]); reflexivity.
    + by destruct has, fit.
  - intros c e.
    destruct e as [f|data|k| | |data|f|f]; simpl.
    + unfold ws_onopen, sendResize. destruct f as [|cs rs]; simpl; [by left|].
      right. exists (SentResize (cs - 1) rs).
      split; [done|split; [done|]]. by intros cs' rs' [= <- <-].
    + left. destruct data as [bytes|blob|s]; simpl; [by destruct (dumpReceived c)|done|].
      destruct (session_state_message JSON_parse s); simpl.
      * unfold call_onSessionState. by destruct (hasOnSessionState c).
      * by destruct (dumpReceived c).
    + left. unfold blob_then. destruct (reading c !! k); [|done].
      simpl. by destruct (dumpReceived c).
    + by left.
    + by left.
    + unfold term_onData. destruct (readyState c) eqn:Hr; simpl; try by left.
      right. exists (SentData data). by rewrite Hr.
    + unfold through_refs, fitAndSendResize. simpl.
      destruct f as [|cs rs]; simpl; [by left|].
      destruct (readyState c) eqn:Hr; simpl; try by left.
      right. exists (SentResize (cs - 1) rs).
      split; [done|split; [done|]]. by intros cs' rs' [= <- <-].
    + left. unfold through_refs, fitWhenActive. simpl. by destruct f.
Qed.

End TerminalStream.

(** The history in two chunks, the first a blob and the second an array
    buffer: the second is appended with no reset before it. *)
Lemma terminal_reset_once_witness :
  TerminalView.calls (TerminalView.term
    (TerminalView.ws_onmessage Wire.parse (Ws.ArrayBufferData [x21])
       (TerminalView.run Wire.parse (TerminalView.initTerminal 80 24 true)
          [TerminalView.Message (Ws.BlobData [x48; x49]); TerminalView.BlobRead 0])))
  = [TerminalView.TermWriteln "VibeAround Web Dashboard — connecting…";
     TerminalView.TermReset;
     TerminalView.TermWrite (TerminalView.Bytes [x48; x49]);
     TerminalView.TermWrite (TerminalView.Bytes [x21])].
Proof.
  destruct (terminal_reset_once Wire.parse 80 24 true
              [TerminalView.Message (Ws.BlobData [x48; x49]); TerminalView.BlobRead 0])
    as (_ & _ & _ & Hbinary & _).
  rewrite (Hbinary [x21]). reflexivity.
Defined.

(** A fit to 100 by 30 on an open socket reports 99 by 30. *)
Lemma resize_reports_fit_minus_one_witness :
  TerminalView.sent
    (TerminalView.sendResize (TerminalView.Fitted 100 30)
       (TerminalView.set_readyState Ws.OPEN (TerminalView.initTerminal 80 24 true)))
  = [TerminalView.SentResize 99 30].
Proof.
  destruct (resize_reports_fit_minus_one Wire.parse (TerminalView.Fitted 100 30))
    as (Hsend & _ & _).
  rewrite Hsend. reflexivity.
Defined.

(** Exit code 0 on a fresh connection: one call, status [stopped]. *)
Lemma session_status_mapping_witness :
  TerminalView.sessionStates
    (TerminalView.ws_onmessage Wire.parse (Ws.StringData Wire.exited_zero)
       (TerminalView.initTerminal 80 24 true))
  = [(Some (Js.Str "claude"), TerminalTypes.stopped)].
Proof.
  destruct (session_status_mapping Wire.parse (TerminalView.initTerminal 80 24 true)
              Wire.exited_zero
              (Js.Obj [("type", Js.Str "exited"); ("tool", Js.Str "claude");
                       ("exit_code", Js.Num 0%float)]))
    as (status & Hcalls & _ & Hstopped & _).
  - reflexivity.
  - right. reflexivity.
  - reflexivity.
  - rewrite Hcalls, (Hstopped eq_refl eq_refl). reflexivity.
Defined.

(** A [running] message on a fresh connection, then the first chunk. *)
Lemma state_frame_keeps_dump_pending_witness :
  let c' := TerminalView.ws_onmessage Wire.parse (Ws.StringData Wire.running_claude)
              (TerminalView.initTerminal 80 24 true) in
  TerminalView.dumpReceived c' = false
  /\ TerminalView.calls (TerminalView.term
        (TerminalView.ws_onmessage Wire.parse (Ws.ArrayBufferData [x48; x49]) c'))
     = [TerminalView.TermWriteln "VibeAround Web Dashboard — connecting…";
        TerminalView.TermReset;
        TerminalView.TermWrite (TerminalView.Bytes [x48; x49])].
Proof.
  destruct (state_frame_keeps_dump_pending Wire.parse (TerminalView.initTerminal 80 24 true)
              Wire.running_claude
              (Js.Obj [("type", Js.Str "running"); ("tool", Js.Str "claude")]))
    as (_ & Hflag & _ & Hnext).
  - reflexivity.
  - left. reflexivity.
  - split; [exact Hflag|].
    destruct (Hnext eq_refl [x48; x49]) as (_ & Hcalls & _). exact Hcalls.
Defined.

(** ** The chat stream *)

Section ChatStream.
Import ChatView.

Variable JSON_parse : string -> option Js.value.
Variable trim : string -> string.

Lemma truthy_false s : Js.truthy s = false <-> s = EmptyString.
Proof. destruct s; simpl; split; congruence. Qed.

Lemma truthy_true s : Js.truthy s = true <-> s <> EmptyString.
Proof. destruct s; simpl; split; congruence. Qed.

Lemma set_last_snoc (earlier : list ChatMessage) l m :
  set_last m (earlier ++ [l]) = earlier ++ [m].
Proof.
  unfold set_last. rewrite length_app. simpl.
  replace (length earlier + 1 - 1)%nat with (length earlier + 0)%nat by lia.
  by rewrite insert_app_r.
Qed.

(** [slice(-k)] for a positive [k] is the last [min k n] elements. *)
Lemma slice_negative {A : Type} (k : Z) (l : list A) :
  0 < k ->
  l = take (length l - Z.to_nat k) l ++ Js.slice (- k) l
  /\ length (Js.slice (- k) l) = Nat.min (Z.to_nat k) (length l).
Proof.
  intros Hk. unfold Js.slice.
  assert (Hneg : (- k <? 0) = true) by (apply Z.ltb_lt; lia).
  rewrite Hneg.
  assert (Hidx : Z.to_nat (Z.max (Z.of_nat (length l) + - k) 0)
                 = (length l - Z.to_nat k)%nat) by lia.
  rewrite Hidx. split.
  - by rewrite take_drop.
  - rewrite length_drop. lia.
Qed.

(** C3. With no prior turn the prompt is the new message as given; with
    prior turns it is the heading, then the lines of the last
    [min 20 n] turns in their order, each its role label and content,
    then the new message as a user line.  [sendMessage] gives the socket
    this prompt for the stored turns and the trimmed input. *)
Theorem prompt_context_window :
  (forall new, buildPromptWithContext [] new = new)
  /\ (forall m ms new,
       exists older recent,
         m :: ms = older ++ recent
         /\ length recent = Nat.min 20 (length (m :: ms))
         /\ buildPromptWithContext (m :: ms) new
            = "Previous conversation:" +:+ Js.LF +:+ Js.LF
                +:+ Js.join (Js.LF +:+ Js.LF)
                      (map (fun t => role_label (role t) +:+ content t) recent)
                +:+ Js.LF +:+ Js.LF +:+ "User: " +:+ new)
  /\ (forall st ws,
       wsRef st = Some ws ->
       readyState ws = Ws.OPEN ->
       trim (input st) <> EmptyString ->
       exists ws',
         wsRef (sendMessage trim st) = Some ws'
         /\ sent ws' = sent ws ++ [buildPromptWithContext (messages st) (trim (input st))]
         /\ (messages st = [] -> sent ws' = sent ws ++ [trim (input st)])).
Proof.
  split; [done|split].
  - intros m ms new.
    destruct (slice_negative 20 (m :: ms)) as [Hsplit Hlen]; [lia|].
    exists (take (length (m :: ms) - Z.to_nat 20) (m :: ms)), (Js.slice (-20) (m :: ms)).
    split; [exact Hsplit|split; [exact Hlen|]].
    unfold buildPromptWithContext, CONTEXT_MESSAGE_LIMIT. simpl length. simpl Nat.eqb.
    cbv iota.
    rewrite (map_ext _ (fun t => role_label (role t) +:+ content t))
      by (intros t; by destruct (role t)).
    reflexivity.
  - intros st ws Hws Hopen Htext. unfold sendMessage.
    apply truthy_true in Htext. rewrite Htext, Hws, Hopen. simpl.
    eexists. split; [reflexivity|]. simpl. split; [done|].
    by intros ->.
Qed.

(** C4. An error frame appends ["Error: " + e] to the last turn when it
    is an assistant turn, after a blank line when that turn has content,
    and otherwise adds an assistant turn holding it; the turn is left
    without progress label and the streaming flag is down.  On an empty
    assistant placeholder the content becomes ["Error: " + e]. *)
Theorem error_frame_appends (st : Chat) (s : string) (j : Js.value) (e : string) :
  JSON_parse s = Some j ->
  error_frame j e ->
  let st' := ws_onmessage JSON_parse (Ws.StringData s) st in
  streaming st' = false
  /\ match last (messages st) with
     | Some l =>
         if is_assistant l
         then exists earlier,
                messages st = earlier ++ [l]
                /\ messages st'
                   = earlier
                     ++ [mkMessage assistant
                           (content l
                              +:+ (if bool_decide (content l = EmptyString)
                                   then EmptyString else Js.LF +:+ Js.LF)
                              +:+ "Error: " +:+ e)
                           None]
         else messages st' = messages st ++ [mkMessage assistant ("Error: " +:+ e) None]
     | None => messages st' = [mkMessage assistant ("Error: " +:+ e) None]
     end
  /\ (forall earlier p,
        messages st = earlier ++ [mkMessage assistant EmptyString p] ->
        messages st' = earlier ++ [mkMessage assistant ("Error: " +:+ e) None]).
Proof.
  intros Hp (Hnull & Hdone & Herr). simpl. rewrite Hp.
  destruct j; try done; rewrite ?Hdone, ?Herr; simpl;
    (split; [done|]); unfold error_updater; (split;
      [ destruct (last (messages st)) as [l|] eqn:Hl;
          [ destruct l as [[] c pr]; simpl; [done|];
            apply last_Some in Hl as [earlier Hm];
            exists earlier; split; [done|];
            rewrite Hm, set_last_snoc; by destruct c
          | apply last_None in Hl; by rewrite Hl ]
      | intros earlier pr Hm; rewrite Hm, last_snoc; simpl;
        by rewrite set_last_snoc ]).
Qed.

(** C6. [sendMessage] returns the state as it was, socket included, when
    there is no socket, the socket is not open, or the trimmed input is
    empty; otherwise it adds a user turn with the trimmed input and an
    empty assistant turn after it, and gives the socket one payload.
    Both copies of the component do so. *)
Theorem send_guard :
  (forall st : Chat,
     (wsRef st = None
      \/ (exists ws, wsRef st = Some ws /\ readyState ws <> Ws.OPEN)
      \/ trim (input st) = EmptyString ->
      sendMessage trim st = st)
     /\ (forall ws,
          wsRef st = Some ws -> readyState ws = Ws.OPEN ->
          trim (input st) <> EmptyString ->
          let st' := sendMessage trim st in
          messages st'
          = messages st ++ [mkMessage user (trim (input st)) None;
                            mkMessage assistant EmptyString None]
          /\ wsRef st'
             = Some (mkSocket Ws.OPEN
                       (sent ws ++ [buildPromptWithContext (messages st) (trim (input st))]))))
  /\ (forall st : ChatViewLegacy.Chat,
       (ChatViewLegacy.wsRef st = None
        \/ (exists ws, ChatViewLegacy.wsRef st = Some ws /\ readyState ws <> Ws.OPEN)
        \/ trim (ChatViewLegacy.input st) = EmptyString ->
        ChatViewLegacy.sendMessage trim st = st)
       /\ (forall ws,
            ChatViewLegacy.wsRef st = Some ws -> readyState ws = Ws.OPEN ->
            trim (ChatViewLegacy.input st) <> EmptyString ->
            let st' := ChatViewLegacy.sendMessage trim st in
            ChatViewLegacy.messages st'
            = ChatViewLegacy.messages st
              ++ [ChatViewLegacy.mkMessage ChatViewLegacy.user (trim (ChatViewLegacy.input st));
                  ChatViewLegacy.mkMessage ChatViewLegacy.assistant EmptyString]
            /\ ChatViewLegacy.wsRef st'
               = Some (mkSocket Ws.OPEN
                         (sent ws
                          ++ [ChatViewLegacy.buildPromptWithContext
                                (ChatViewLegacy.messages st)
                                (trim (ChatViewLegacy.input st))])))).
Proof.
  split; intros st; split.
  - unfold sendMessage. intros [Hnone|[(ws & Hws & Hclosed)|Hempty]].
    + rewrite Hnone. by destruct (negb _).
    + rewrite Hws. destruct (negb (Js.truthy _)); [done|].
      by destruct (readyState ws).
    + by rewrite Hempty.
  - intros ws Hws Hopen Htext. unfold sendMessage.
    apply truthy_true in Htext. rewrite Htext, Hws, Hopen. done.
  - unfold ChatViewLegacy.sendMessage. intros [Hnone|[(ws & Hws & Hclosed)|Hempty]].
    + rewrite Hnone. by destruct (negb _).
    + rewrite Hws. destruct (negb (Js.truthy _)); [done|].
      by destruct (readyState ws).
    + by rewrite Hempty.
  - intros ws Hws Hopen Htext. unfold ChatViewLegacy.sendMessage.
    apply truthy_true in Htext. rewrite Htext, Hws, Hopen. done.
Qed.

(** Under any frame the turns before a trailing assistant turn stay as
    they are, and the trailing turn stays an assistant turn. *)
Lemma updaters_keep_earlier (earlier : list ChatMessage) l :
  is_assistant l = true ->
  (exists l', done_updater (earlier ++ [l]) = earlier ++ [l']
              /\ is_assistant l' = true /\ shows_progress l' = false)
  /\ (forall e, exists l', error_updater e (earlier ++ [l]) = earlier ++ [l']
                          /\ is_assistant l' = true)
  /\ (forall p, exists l', progress_updater p (earlier ++ [l]) = earlier ++ [l']
                          /\ is_assistant l' = true)
  /\ (forall t, exists l', append_updater t (earlier ++ [l]) = earlier ++ [l']
                          /\ is_assistant l' = true /\ progress l' = None).
Proof.
  intros Hl.
  unfold done_updater, error_updater, progress_updater, append_updater.
  rewrite last_snoc, Hl. simpl. repeat split.
  - destruct (shows_progress l) eqn:Hs.
    + rewrite set_last_snoc. eexists. split; [done|]. split; [|done].
      unfold is_assistant in *. simpl. done.
    + by exists l.
  - intros e. rewrite set_last_snoc. eexists. split; [done|].
    unfold is_assistant in *. simpl. done.
  - intros p. rewrite set_last_snoc. eexists. split; [done|].
    unfold is_assistant in *. simpl. done.
  - intros t. rewrite set_last_snoc. eexists. split; [done|]. split; [|done].
    unfold is_assistant in *. simpl. done.
Qed.

Lemma onmessage_keeps_earlier data st earlier l :
  messages st = earlier ++ [l] -> is_assistant l = true ->
  exists l', messages (ws_onmessage JSON_parse data st) = earlier ++ [l']
             /\ is_assistant l' = true.
Proof.
  intros Hm Hl.
  destruct (updaters_keep_earlier earlier l Hl)
    as ((ld & Hd & Hda & _) & Herr & Hprog & Happ).
  assert (Happend : forall t,
            exists l', messages (appendToAssistant t st) = earlier ++ [l']
                       /\ is_assistant l' = true).
  { intros t. unfold appendToAssistant. destruct (negb (Js.truthy t)).
    - by exists l.
    - simpl. rewrite Hm. destruct (Happ t) as (l' & ? & ? & _). by exists l'. }
  destruct data as [bytes|blob|s]; simpl; [by exists l|by exists l|].
  destruct (JSON_parse s) as [j|]; [|apply Happend].
  assert (Hobj :
    exists l', messages
      (if Js.is_true (Js.get j "done")
       then setStreaming false (setMessages done_updater st)
       else
         match Js.as_string (Js.get j "error") with
         | Some e => setStreaming false (setMessages (error_updater e) st)
         | None =>
             match Js.as_string (Js.get j "progress") with
             | Some p => setMessages (progress_updater p) st
             | None =>
                 match Js.as_string (Js.get j "text") with
                 | Some t => appendToAssistant t st
                 | None => st
                 end
             end
         end) = earlier ++ [l'] /\ is_assistant l' = true).
  { destruct (Js.is_true _); simpl; [rewrite Hm; by exists ld|].
    destruct (Js.as_string (Js.get j "error")) as [e|]; simpl;
      [rewrite Hm; apply Herr|].
    destruct (Js.as_string (Js.get j "progress")) as [p|]; simpl;
      [rewrite Hm; apply Hprog|].
    destruct (Js.as_string (Js.get j "text")) as [t|]; [apply Happend|by exists l]. }
  destruct j; exact Hobj.
Qed.

Lemma receive_keeps_earlier frames : forall st earlier l,
  messages st = earlier ++ [l] -> is_assistant l = true ->
  exists l', messages (receive JSON_parse st frames) = earlier ++ [l']
             /\ is_assistant l' = true.
Proof.
  induction frames as [|d frames IH]; intros st earlier l Hm Hl; simpl.
  - by exists l.
  - destruct (onmessage_keeps_earlier d st earlier l Hm Hl) as (l1 & Hm1 & Hl1).
    apply (IH _ earlier l1 Hm1 Hl1).
Qed.

(** C5 (as amended). A progress frame leaves every turn's content and
    role, the streaming flag and the socket as they were: it sets the
    label of the last turn when that is an assistant turn and changes
    nothing otherwise.  After it and any further frames, a [done] frame
    or a text frame with non-empty text leaves the turns before the
    labelled one as they were and that turn, still the last, with no
    label showing.  A text frame with empty text changes nothing, the
    label included. *)
Theorem progress_label_lifecycle :
  (forall st s j p,
     JSON_parse s = Some j -> progress_frame j p ->
     let st' := ws_onmessage JSON_parse (Ws.StringData s) st in
     map content (messages st') = map content (messages st)
     /\ map role (messages st') = map role (messages st)
     /\ streaming st' = streaming st /\ wsRef st' = wsRef st
     /\ match last (messages st) with
        | Some l =>
            if is_assistant l
            then exists earlier,
                   messages st = earlier ++ [l]
                   /\ messages st' = earlier ++ [mkMessage assistant (content l) (Some p)]
            else st' = st
        | None => st' = st
        end)
  /\ (forall st earlier l s j p frames s' j',
       messages st = earlier ++ [l] -> is_assistant l = true ->
       JSON_parse s = Some j -> progress_frame j p ->
       JSON_parse s' = Some j' ->
       done_frame j' \/ (exists t, text_frame j' t /\ t <> EmptyString) ->
       exists l',
         messages
           (ws_onmessage JSON_parse (Ws.StringData s')
              (receive JSON_parse (ws_onmessage JSON_parse (Ws.StringData s) st) frames))
         = earlier ++ [l']
         /\ is_assistant l' = true /\ shows_progress l' = false)
  /\ (forall st s j,
       JSON_parse s = Some j -> text_frame j EmptyString ->
       ws_onmessage JSON_parse (Ws.StringData s) st = st).
Proof.
  split; [|split].
  - intros st s j p Hp (Hnull & Hdone & Herr & Hprog). simpl. rewrite Hp.
    assert (Hstep :
      (match j with
       | Js.Null => st
       | _ =>
           if Js.is_true (Js.get j "done")
           then setStreaming false (setMessages done_updater st)
           else
             match Js.as_string (Js.get j "error") with
             | Some e => setStreaming false (setMessages (error_updater e) st)
             | None =>
                 match Js.as_string (Js.get j "progress") with
                 | Some p => setMessages (progress_updater p) st
                 | None =>
                     match Js.as_string (Js.get j "text") with
                     | Some t => appendToAssistant t st
                     | None => st
                     end
                 end
             end
       end) = setMessages (progress_updater p) st).
    { destruct j; try done; by rewrite Hdone, Herr, Hprog. }
    rewrite Hstep. unfold setMessages, progress_updater. simpl.
    destruct (last (messages st)) as [l|] eqn:Hl.
    + destruct l as [[] c pr]; simpl.
      * repeat split; try done; by destruct st.
      * apply last_Some in Hl as [earlier Hm].
        rewrite Hm, set_last_snoc, !map_app; simpl.
        repeat split; try done; by exists earlier.
    + repeat split; try done; by destruct st.
  - intros st earlier l s j p frames s' j' Hm Hl Hp Hprog Hp' Hlast.
    destruct (onmessage_keeps_earlier (Ws.StringData s) st earlier l Hm Hl)
      as (l1 & Hm1 & Hl1).
    destruct (receive_keeps_earlier frames _ earlier l1 Hm1 Hl1) as (l2 & Hm2 & Hl2).
    set (st2 := receive JSON_parse (ws_onmessage JSON_parse (Ws.StringData s) st) frames)
      in *.
    destruct (updaters_keep_earlier earlier l2 Hl2)
      as ((ld & Hd & Hda & Hds) & _ & _ & Happ).
    simpl. rewrite Hp'.
    destruct Hlast as [(Hnull & Hdone)|(t & (Hnull & Hdone & Herr & Hprog' & Htext) & Ht)].
    + destruct j'; try done; rewrite Hdone; simpl; rewrite Hm2; by exists ld.
    + destruct (Happ t) as (la & Ha & Haa & Hap).
      apply truthy_true in Ht.
      destruct j'; try done; rewrite Hdone, Herr, Hprog', Htext;
        unfold appendToAssistant; rewrite Ht; simpl; rewrite Hm2;
        exists la; (split; [done|split; [done|]]);
        unfold shows_progress; by rewrite Hap.
  - intros st s j Hp (Hnull & Hdone & Herr & Hprog & Htext). simpl. rewrite Hp.
    destruct j; try done; by rewrite Hdone, Herr, Hprog, Htext.
Qed.

End ChatStream.

(** The placeholder state after sending "hello" on an open socket. *)
Lemma error_frame_appends_witness :
  let st := ChatView.mkChat
              [ChatView.mkMessage ChatView.user "hello" None;
               ChatView.mkMessage ChatView.assistant EmptyString None]
              EmptyString true true (Some (ChatView.mkSocket Ws.OPEN ["hello"])) in
  let st' := ChatView.ws_onmessage Wire.parse (Ws.StringData Wire.error_timeout) st in
  ChatView.streaming st' = false
  /\ ChatView.messages st'
     = [ChatView.mkMessage ChatView.user "hello" None;
        ChatView.mkMessage ChatView.assistant "Error: timeout" None].
Proof.
  destruct (error_frame_appends Wire.parse
              (ChatView.mkChat
                 [ChatView.mkMessage ChatView.user "hello" None;
                  ChatView.mkMessage ChatView.assistant EmptyString None]
                 EmptyString true true (Some (ChatView.mkSocket Ws.OPEN ["hello"])))
              Wire.error_timeout (Js.Obj [("error", Js.Str "timeout")]) "timeout")
    as (Hstreaming & _ & Hplaceholder).
  - reflexivity.
  - split; [discriminate|split; reflexivity].
  - split; [exact Hstreaming|].
    exact (Hplaceholder [ChatView.mkMessage ChatView.user "hello" None] None eq_refl).
Defined.

(** Two prior turns and the input " bye ": the payload sent. *)
Lemma prompt_context_window_witness :
  let st := ChatView.mkChat
              [ChatView.mkMessage ChatView.user "hello" None;
               ChatView.mkMessage ChatView.assistant "Hi" None]
              " bye " true false (Some (ChatView.mkSocket Ws.OPEN ["hello"])) in
  exists ws',
    ChatView.wsRef (ChatView.sendMessage Wire.trim st) = Some ws'
    /\ ChatView.sent ws'
       = ["hello";
          "Previous conversation:" +:+ Js.LF +:+ Js.LF
            +:+ "User: hello" +:+ Js.LF +:+ Js.LF +:+ "Assistant: Hi"
            +:+ Js.LF +:+ Js.LF +:+ "User: bye"].
Proof.
  destruct (prompt_context_window Wire.trim) as (_ & _ & Hsend).
  destruct (Hsend
              (ChatView.mkChat
                 [ChatView.mkMessage ChatView.user "hello" None;
                  ChatView.mkMessage ChatView.assistant "Hi" None]
                 " bye " true false (Some (ChatView.mkSocket Ws.OPEN ["hello"])))
              (ChatView.mkSocket Ws.OPEN ["hello"]) eq_refl eq_refl)
    as (ws' & Hws & Hsent & _).
  - discriminate.
  - exists ws'. split; [exact Hws|]. rewrite Hsent. reflexivity.
Defined.

(** Sending on a closing socket changes nothing; "hello" on an open one
    adds the two turns. *)
Lemma send_guard_witness :
  let closing := ChatView.mkChat [] "hello" false false
                   (Some (ChatView.mkSocket Ws.CLOSING [])) in
  let ready := ChatView.mkChat [] " hello " true false
                 (Some (ChatView.mkSocket Ws.OPEN [])) in
  ChatView.sendMessage Wire.trim closing = closing
  /\ ChatView.messages (ChatView.sendMessage Wire.trim ready)
     = [ChatView.mkMessage ChatView.user "hello" None;
        ChatView.mkMessage ChatView.assistant EmptyString None].
Proof.
  destruct (send_guard Wire.trim) as (Hchat & _).
  split.
  - destruct (Hchat (ChatView.mkChat [] "hello" false false
                       (Some (ChatView.mkSocket Ws.CLOSING [])))) as (Hrefused & _).
    apply Hrefused. right. left.
    exists (ChatView.mkSocket Ws.CLOSING []). split; [reflexivity|discriminate].
  - destruct (Hchat (ChatView.mkChat [] " hello " true false
                       (Some (ChatView.mkSocket Ws.OPEN [])))) as (_ & Hsent).
    destruct (Hsent (ChatView.mkSocket Ws.OPEN []) eq_refl eq_refl) as (Hturns & _).
    + discriminate.
    + exact Hturns.
Defined.

(** After ["Thinking..."] on the placeholder, the text "Hi" leaves the
    turn without label. *)
Lemma progress_label_lifecycle_witness :
  let st := ChatView.mkChat
              [ChatView.mkMessage ChatView.user "hello" None;
               ChatView.mkMessage ChatView.assistant EmptyString None]
              EmptyString true true (Some (ChatView.mkSocket Ws.OPEN ["hello"])) in
  exists l',
    ChatView.messages
      (ChatView.ws_onmessage Wire.parse (Ws.StringData Wire.text_hi)
         (ChatView.receive Wire.parse
            (ChatView.ws_onmessage Wire.parse (Ws.StringData Wire.progress_thinking) st) []))
    = [ChatView.mkMessage ChatView.user "hello" None] ++ [l']
    /\ ChatView.is_assistant l' = true /\ ChatView.shows_progress l' = false.
Proof.
  destruct (progress_label_lifecycle Wire.parse) as (_ & Hclears & _).
  apply (Hclears _ [ChatView.mkMessage ChatView.user "hello" None]
           (ChatView.mkMessage ChatView.assistant EmptyString None)
           Wire.progress_thinking (Js.Obj [("progress", Js.Str "Thinking...")]) "Thinking..."
           [] Wire.text_hi (Js.Obj [("text", Js.Str "Hi")])).
  - reflexivity.
  - reflexivity.
  - reflexivity.
  - split; [discriminate|repeat split].
  - reflexivity.
  - right. exists "Hi". split; [|discriminate].
    split; [discriminate|repeat split].
Defined.

(** C5, as stated, fails on a text frame with empty text: after
    ["Thinking..."] is set, the frame [{text: ""}] is a text frame and the
    label is still there. *)
Lemma empty_text_keeps_progress_label :
  let st := ChatView.mkChat
              [ChatView.mkMessage ChatView.user "hello" None;
               ChatView.mkMessage ChatView.assistant EmptyString None]
              EmptyString true true (Some (ChatView.mkSocket Ws.OPEN ["hello"])) in
  Wire.parse Wire.text_empty = Some (Js.Obj [("text", Js.Str EmptyString)])
  /\ ChatView.text_frame (Js.Obj [("text", Js.Str EmptyString)]) EmptyString
  /\ ChatView.messages
       (ChatView.receive Wire.parse st
          [Ws.StringData Wire.progress_thinking; Ws.StringData Wire.text_empty])
     = [ChatView.mkMessage ChatView.user "hello" None;
        ChatView.mkMessage ChatView.assistant EmptyString (Some "Thinking...")].
Proof.
  split; [reflexivity|split; [|reflexivity]].
  split; [discriminate|repeat split].
Qed.

(** The exchange of the specification: "hello" with no prior turn goes
    out as it is; progress, text and done leave one user turn and one
    assistant turn "Hi" without label, and the streaming flag down. *)
Example hello_exchange :
  let st0 := ChatView.mkChat [] " hello " true false (Some (ChatView.mkSocket Ws.OPEN [])) in
  let st1 := ChatView.sendMessage Wire.trim st0 in
  let st2 := ChatView.receive Wire.parse st1
               [Ws.StringData Wire.progress_thinking; Ws.StringData Wire.text_hi;
                Ws.StringData Wire.done_true] in
  ChatView.wsRef st1 = Some (ChatView.mkSocket Ws.OPEN ["hello"])
  /\ ChatView.messages st2
     = [ChatView.mkMessage ChatView.user "hello" None;
        ChatView.mkMessage ChatView.assistant "Hi" None]
  /\ ChatView.streaming st2 = false.
Proof. repeat split. Qed.

(** With twenty-one prior turns the oldest is left out of the prompt. *)
Example prompt_drops_the_oldest_turn (new : string) :
  let recent := replicate 20 (ChatView.mkMessage ChatView.assistant "ok" None) in
  ChatView.buildPromptWithContext
    (ChatView.mkMessage ChatView.user "first" None :: recent) new
  = ChatView.buildPromptWithContext recent new.
Proof. reflexivity. Qed.

(** The copy of the component without progress frames takes a progress
    frame for a text chunk and appends the frame's text. *)
Example legacy_progress_frame_is_content :
  ChatViewLegacy.messages
    (ChatViewLegacy.ws_onmessage Wire.parse (Ws.StringData Wire.progress_thinking)
       (ChatViewLegacy.mkChat
          [ChatViewLegacy.mkMessage ChatViewLegacy.user "hello";
           ChatViewLegacy.mkMessage ChatViewLegacy.assistant EmptyString]
          EmptyString true true (Some (ChatView.mkSocket Ws.OPEN ["hello"]))))
  = [ChatViewLegacy.mkMessage ChatViewLegacy.user "hello";
     ChatViewLegacy.mkMessage ChatViewLegacy.assistant Wire.progress_thinking].
Proof. reflexivity. Qed.

(** ** The session registry *)

Section Registry.
Import TerminalTypes App.

Lemma Forall2_map_self {A : Type} (R : A -> A -> Prop) (f : A -> A) (l : list A) :
  (forall x, R x (f x)) -> Forall2 R l (map f l).
Proof. intros Hf. induction l; simpl; constructor; auto. Qed.

Lemma all_sessions_filter (P : TerminalSession.t -> Prop)
    `{!forall s, Decision (P s)} (gs : list TerminalGroup.t) :
  all_sessions (map (fun g => with_sessions g (filter P (TerminalGroup.sessions g))) gs)
  = filter P (all_sessions gs).
Proof.
  unfold all_sessions. induction gs as [|g gs IH]; simpl; [done|].
  by rewrite filter_app, IH.
Qed.

(** C9. [setSessionState] leaves the selections and the view mode as
    they are, every group's own fields as they are, every session with
    another id as it is, and of a session with the given id changes only
    [tool] and [status]. *)
Theorem set_session_state_frame (sessionId : string) (tool : ToolType)
    (status : TerminalStatus) (st : State) :
  let st' := setSessionState sessionId tool status st in
  viewMode st' = viewMode st
  /\ activeTabId st' = activeTabId st
  /\ maximizedSession st' = maximizedSession st
  /\ Forall2
       (fun g g' =>
          same_group g g'
          /\ Forall2
               (fun s s' =>
                  if bool_decide (TerminalSession.id s = sessionId)
                  then same_identity s s'
                       /\ TerminalSession.tool s' = tool
                       /\ TerminalSession.status s' = status
                  else s' = s)
               (TerminalGroup.sessions g) (TerminalGroup.sessions g'))
       (groups st) (groups st').
Proof.
  simpl. repeat split.
  apply Forall2_map_self. intros g. split; [done|]. simpl.
  apply Forall2_map_self. intros s.
  destruct (bool_decide (TerminalSession.id s = sessionId)); done.
Qed.

(** C7 (as amended). After a successful delete, [closeSession] removes
    every session with the given id and keeps the others in their order;
    it clears the maximized selection when it was that session and keeps
    it otherwise; when the active tab was that session it selects the
    first remaining session, or none when none remain, and it keeps the
    active tab otherwise, whether or not the session was maximized.  A
    failed delete changes nothing. *)
Theorem close_session_selection (sessionId : string) (st : State) :
  let st' := closeSession Resolved (groups st) sessionId st in
  all_sessions (groups st')
  = filter (fun s => TerminalSession.id s <> sessionId) (all_sessions (groups st))
  /\ Forall (fun s => TerminalSession.id s <> sessionId) (all_sessions (groups st'))
  /\ Forall2 same_group (groups st) (groups st')
  /\ maximizedSession st'
     = (if bool_decide (maximizedSession st = Some sessionId)
        then None else maximizedSession st)
  /\ activeTabId st'
     = (if bool_decide (activeTabId st = Some sessionId)
        then TerminalSession.id <$> head (all_sessions (groups st'))
        else activeTabId st)
  /\ viewMode st' = viewMode st
  /\ closeSession Rejected (groups st) sessionId st = st.
Proof.
  simpl.
  assert (Hall := all_sessions_filter (fun s => TerminalSession.id s <> sessionId) (groups st)).
  split; [exact Hall|]. split.
  { rewrite Hall. apply list.Forall_forall. intros s Hs.
    by apply list_elem_of_filter in Hs as [? _]. }
  split; [by apply Forall2_map_self|]. split.
  { destruct (maximizedSession st) as [m|]; [|done].
    destruct (decide (m = sessionId)) as [->|Hne].
    - by rewrite !bool_decide_eq_true_2.
    - rewrite !bool_decide_eq_false_2; [done|congruence|done]. }
  split; [|done].
  rewrite Hall.
  destruct (activeTabId st) as [a|]; [|done].
  destruct (decide (a = sessionId)) as [->|Hne].
  - rewrite bool_decide_eq_false_2 by (intros H; by apply H).
    by rewrite bool_decide_eq_true_2.
  - rewrite bool_decide_eq_true_2 by done.
    rewrite bool_decide_eq_false_2; [done|congruence].
Qed.

End Registry.

(** C7, as stated, fails when the maximized session is not the active
    tab: with sessions a, b, c, the tab on c and b maximized from the
    grid, closing b clears the maximized selection and leaves the tab on
    c, while the first remaining session is a. *)
Lemma close_maximized_keeps_other_tab :
  let st := App.toggleMaximize "b"
              (App.addSession (App.sample_session "c" "Codex" "codex" TerminalTypes.codex 3)
                 (App.addSession (App.sample_session "b" "Gemini" "gemini" TerminalTypes.gemini 2)
                    (App.addSession (App.sample_session "a" "Claude" "claude" TerminalTypes.claude 1)
                       App.initial))) in
  let st' := App.closeSession App.Resolved (App.groups st) "b" st in
  App.maximizedSession st = Some "b"
  /\ App.activeTabId st = Some "c"
  /\ App.maximizedSession st' = None
  /\ TerminalSession.id <$> head (App.all_sessions (App.groups st')) = Some "a"
  /\ App.activeTabId st' = Some "c".
Proof. repeat split. Qed.

(** * Further properties of the handlers *)

(** ** The terminal stream: frames and input along a run *)

Section TerminalTraffic.
Import TerminalTypes TerminalView.

Variable JSON_parse : string -> option Js.value.

Lemma write_frame_written x c :
  written (calls (term (write_frame x c))) = written (calls (term c)) ++ [x].
Proof.
  rewrite write_frame_calls, !written_app.
  destruct (dumpReceived c); simpl; by rewrite ?app_nil_r.
Qed.

Lemma write_frame_reading x c : reading (write_frame x c) = reading c.
Proof. unfold write_frame. by destruct (dumpReceived c). Qed.

Lemma sendResize_reading fit c : reading (sendResize fit c) = reading c.
Proof.
  destruct fit as [|cs rs]; simpl; [done|].
  by destruct (Ws.is_open (readyState c)).
Qed.

(** What one handler run does to the frames written and the reads
    pending. *)
Lemma step_frames c e :
  written (calls (term (step JSON_parse c e))) ++ (Bytes <$> reading (step JSON_parse c e))
  ≡ₚ written (calls (term c)) ++ (Bytes <$> reading c) ++ payloads JSON_parse [e].
Proof.
  destruct e as [fit|data|k| | |data|fit|fit]; simpl.
  - unfold ws_onopen.
    destruct (sendResize_surface fit
      (term_call (TermWriteln (CRLF +:+ "Connected. Receiving history…" +:+ CRLF))
         (set_readyState Ws.OPEN c))) as [Hc _].
    rewrite Hc. simpl. rewrite written_app. simpl. rewrite !app_nil_r.
    by rewrite sendResize_reading.
  - destruct data as [bytes|blob|s]; simpl.
    + change (written (calls (term (write_frame (Bytes bytes) c)))
              ++ (Bytes <$> reading (write_frame (Bytes bytes) c))
              ≡ₚ written (calls (term c)) ++ (Bytes <$> reading c) ++ [Bytes bytes]).
      rewrite write_frame_written, write_frame_reading.
      rewrite <- !app_assoc. apply Permutation_app_head, Permutation_app_comm.
    + by rewrite fmap_app.
    + destruct (session_state_message JSON_parse s) as [msg|]; simpl.
      * unfold call_onSessionState. destruct (hasOnSessionState c); simpl;
          by rewrite app_nil_r.
      * change (written (calls (term (write_frame (Text s) c)))
                ++ (Bytes <$> reading (write_frame (Text s) c))
                ≡ₚ written (calls (term c)) ++ (Bytes <$> reading c) ++ [Text s]).
        rewrite write_frame_written, write_frame_reading.
        rewrite <- !app_assoc. apply Permutation_app_head, Permutation_app_comm.
  - rewrite app_nil_r. unfold blob_then.
    destruct (reading c !! k) as [bytes|] eqn:Hk; [|done].
    change (written (calls (term (write_frame (Bytes bytes)
              (set_reading (delete k (reading c)) c))))
            ++ (Bytes <$> reading (write_frame (Bytes bytes)
                  (set_reading (delete k (reading c)) c)))
            ≡ₚ written (calls (term c)) ++ (Bytes <$> reading c)).
    rewrite write_frame_written, write_frame_reading. simpl.
    rewrite <- app_assoc. apply Permutation_app_head. simpl.
    rewrite (delete_Permutation (reading c) k bytes Hk) at 2. done.
  - rewrite written_app. simpl. by rewrite !app_nil_r.
  - rewrite written_app. simpl. by rewrite !app_nil_r.
  - rewrite app_nil_r. unfold term_onData. by destruct (Ws.is_open _).
  - rewrite app_nil_r. unfold through_refs, fitAndSendResize. simpl.
    destruct fit as [|cs rs]; simpl; [done|]. by destruct (Ws.is_open (readyState c)).
  - rewrite app_nil_r. unfold through_refs, fitWhenActive. simpl. by destruct fit.
Qed.

Lemma run_cons c e es :
  run JSON_parse c (e :: es) = run JSON_parse (step JSON_parse c e) es.
Proof. reflexivity. Qed.

Lemma payloads_cons e es :
  payloads JSON_parse (e :: es) = payloads JSON_parse [e] ++ payloads JSON_parse es.
Proof. unfold payloads. simpl. by destruct (match e with Message d => _ | _ => None end). Qed.

Lemma no_frame_payloads (cs rs : Z) (cb : bool) (es : list Event) :
  written (calls (term (run JSON_parse (initTerminal cs rs cb) es)))
    ++ (Bytes <$> reading (run JSON_parse (initTerminal cs rs cb) es))
  ≡ₚ payloads JSON_parse es.
Proof.
  assert (Hgen : forall es c,
            written (calls (term (run JSON_parse c es)))
              ++ (Bytes <$> reading (run JSON_parse c es))
            ≡ₚ written (calls (term c)) ++ (Bytes <$> reading c)
                 ++ payloads JSON_parse es).
  { clear es. induction es as [|e es IH]; intros c.
    - unfold payloads. simpl. by rewrite app_nil_r.
    - rewrite run_cons, IH, payloads_cons.
      rewrite (app_assoc (written _)), step_frames. by rewrite <- !app_assoc. }
  simpl. by rewrite Hgen.
Qed.

(** Every frame that carries output reaches the surface once its read, if
    any, completes: along a run from the state [initTerminal] leaves, the
    chunks written together with the blobs still being read are the
    chunks of the message events, each as often as it arrived. *)
Theorem no_frame_lost_or_repeated (cs rs : Z) (cb : bool) (es : list Event) :
  let c := run JSON_parse (initTerminal cs rs cb) es in
  written (calls (term c)) ++ (Bytes <$> reading c) ≡ₚ payloads JSON_parse es.
Proof. intros c. apply no_frame_payloads. Qed.

Lemma write_frame_binary x c :
  binary_written (calls (term (write_frame x c)))
  = binary_written (calls (term c))
    ++ match x with Bytes bytes => [bytes] | Text _ => [] end.
Proof.
  unfold binary_written. rewrite write_frame_written, omap_app.
  by destruct x.
Qed.

Lemma step_binary c e :
  in_arrival_order e = true ->
  binary_written (calls (term (step JSON_parse c e))) ++ reading (step JSON_parse c e)
  = binary_written (calls (term c)) ++ reading c ++ blobs_arrived [e].
Proof.
  intros He. destruct e as [fit|data|k| | |data|fit|fit]; simpl in *.
  - unfold ws_onopen. rewrite sendResize_reading.
    destruct (sendResize_surface fit
      (term_call (TermWriteln (CRLF +:+ "Connected. Receiving history…" +:+ CRLF))
         (set_readyState Ws.OPEN c))) as [Hc _].
    rewrite Hc. unfold binary_written. simpl. rewrite written_app. simpl.
    by rewrite !app_nil_r.
  - destruct data as [bytes|blob|s]; simpl; [done|by rewrite app_assoc|].
    destruct (session_state_message JSON_parse s) as [msg|]; simpl.
    + unfold call_onSessionState. destruct (hasOnSessionState c); simpl;
        by rewrite app_nil_r.
    + change (binary_written (calls (term (write_frame (Text s) c)))
              ++ reading (write_frame (Text s) c)
              = binary_written (calls (term c)) ++ reading c ++ []).
      by rewrite write_frame_binary, write_frame_reading, !app_nil_r.
  - apply bool_decide_eq_true in He. subst k. rewrite app_nil_r. unfold blob_then.
    destruct (reading c) as [|bytes rest] eqn:Hr; simpl; [by rewrite Hr|].
    change (binary_written (calls (term (write_frame (Bytes bytes) (set_reading rest c))))
            ++ reading (write_frame (Bytes bytes) (set_reading rest c))
            = binary_written (calls (term c)) ++ bytes :: rest).
    rewrite write_frame_binary, write_frame_reading. simpl. by rewrite <- app_assoc.
  - unfold binary_written. rewrite written_app. simpl. by rewrite !app_nil_r.
  - unfold binary_written. rewrite written_app. simpl. by rewrite !app_nil_r.
  - rewrite app_nil_r. unfold term_onData. by destruct (Ws.is_open _).
  - rewrite app_nil_r. unfold through_refs, fitAndSendResize. simpl.
    destruct fit as [|cs rs]; simpl; [done|]. by destruct (Ws.is_open (readyState c)).
  - rewrite app_nil_r. unfold through_refs, fitWhenActive. simpl. by destruct fit.
Qed.

(** When the reads of the blobs complete in the order the blobs arrived,
    the binary output is written in that order: the byte chunks on the
    surface followed by the blobs still being read are the blobs
    received, in order.  (String frames are written as they arrive and
    may come between.) *)
Theorem binary_output_in_arrival_order (cs rs : Z) (cb : bool) (es : list Event) :
  Forall (fun e => in_arrival_order e = true) es ->
  let c := run JSON_parse (initTerminal cs rs cb) es in
  binary_written (calls (term c)) ++ reading c = blobs_arrived es.
Proof.
  assert (Hgen : forall es c,
            Forall (fun e => in_arrival_order e = true) es ->
            binary_written (calls (term (run JSON_parse c es)))
              ++ reading (run JSON_parse c es)
            = binary_written (calls (term c)) ++ reading c ++ blobs_arrived es).
  { clear es. induction es as [|e es IH]; intros c Hes.
    - simpl. by rewrite !app_nil_r.
    - apply Forall_cons in Hes as [He Hes].
      rewrite run_cons, (IH _ Hes), app_assoc, (step_binary c e He).
      rewrite <- !app_assoc. do 2 f_equal.
      unfold blobs_arrived. simpl.
      by destruct (match e with Message (Ws.BlobData b) => _ | _ => None end). }
  intros Hes. simpl. by rewrite (Hgen _ _ Hes).
Qed.

Lemma sendResize_traffic fit c :
  readyState (sendResize fit c) = readyState c
  /\ data_sent (sent (sendResize fit c)) = data_sent (sent c).
Proof.
  destruct fit as [|cs rs]; simpl; [done|].
  destruct (Ws.is_open (readyState c)); simpl; [|done].
  unfold data_sent. rewrite omap_app. simpl. by rewrite app_nil_r.
Qed.

Lemma step_input c e :
  data_sent (sent (step JSON_parse c e))
  = data_sent (sent c) ++ typed_while_open (Ws.is_open (readyState c)) [e]
  /\ typed_while_open (Ws.is_open (readyState (step JSON_parse c e)))
     = fun es => match e with
                 | Open _ => typed_while_open true es
                 | Close => typed_while_open false es
                 | _ => typed_while_open (Ws.is_open (readyState c)) es
                 end.
Proof.
  destruct e as [fit|data|k| | |data|fit|fit]; simpl.
  - unfold ws_onopen.
    destruct (sendResize_traffic fit
      (term_call (TermWriteln (CRLF +:+ "Connected. Receiving history…" +:+ CRLF))
         (set_readyState Ws.OPEN c))) as [Hr Hs].
    rewrite Hr, Hs. simpl. by rewrite app_nil_r.
  - rewrite app_nil_r. destruct data as [bytes|blob|s]; simpl;
      [by destruct (dumpReceived c)|done|].
    destruct (session_state_message JSON_parse s); simpl.
    + unfold call_onSessionState. by destruct (hasOnSessionState c).
    + by destruct (dumpReceived c).
  - rewrite app_nil_r. unfold blob_then. destruct (reading c !! k); [|done].
    simpl. by destruct (dumpReceived c).
  - by rewrite app_nil_r.
  - by rewrite app_nil_r.
  - unfold term_onData. destruct (Ws.is_open (readyState c)) eqn:Ho; simpl.
    + unfold data_sent. rewrite omap_app. simpl. by rewrite Ho.
    + by rewrite app_nil_r, Ho.
  - rewrite app_nil_r. unfold through_refs, fitAndSendResize. simpl.
    destruct fit as [|cs rs]; simpl; [done|].
    destruct (Ws.is_open (readyState c)) eqn:Ho; simpl; rewrite ?Ho; [|done].
    unfold data_sent. rewrite omap_app. simpl. by rewrite app_nil_r.
  - rewrite app_nil_r. unfold through_refs, fitWhenActive. simpl. by destruct fit.
Qed.

(** Input from the surface goes to the socket as it is and in order
    while the socket is open, and is dropped, not queued, while it is
    not: the data frames sent along a run are the inputs produced
    between an [onopen] and the next [onclose]. *)
Theorem input_forwarded_only_while_open (cs rs : Z) (cb : bool) (es : list Event) :
  data_sent (sent (run JSON_parse (initTerminal cs rs cb) es))
  = typed_while_open false es.
Proof.
  assert (Hgen : forall es c,
            data_sent (sent (run JSON_parse c es))
            = data_sent (sent c) ++ typed_while_open (Ws.is_open (readyState c)) es).
  { clear es. induction es as [|e es IH]; intros c.
    - simpl. by rewrite app_nil_r.
    - rewrite run_cons, IH. destruct (step_input c e) as [Hs Ht].
      rewrite Hs, Ht, <- app_assoc. f_equal.
      destruct e; simpl; try done.
      by destruct (Ws.is_open (readyState c)). }
  by rewrite Hgen.
Qed.

Lemma quiet_step c c' e :
  hasOnSessionState c' = hasOnSessionState c ->
  sessionStates c' = sessionStates c ->
  announced JSON_parse [e] = [] ->
  hasOnSessionState c' = hasOnSessionState c
  /\ sessionStates c' = sessionStates c
       ++ (if hasOnSessionState c then announced JSON_parse [e] else []).
Proof.
  intros Hh Hs He. split; [done|]. rewrite Hs, He.
  destruct (hasOnSessionState c); by rewrite app_nil_r.
Qed.

Lemma write_frame_reports x c :
  hasOnSessionState (write_frame x c) = hasOnSessionState c
  /\ sessionStates (write_frame x c) = sessionStates c.
Proof. unfold write_frame. by destruct (dumpReceived c). Qed.

Lemma step_reports c e :
  hasOnSessionState (step JSON_parse c e) = hasOnSessionState c
  /\ sessionStates (step JSON_parse c e)
     = sessionStates c
       ++ (if hasOnSessionState c then announced JSON_parse [e] else []).
Proof.
  destruct e as [fit|data|k| | |data|fit|fit]; cbn [step].
  - apply quiet_step; [| |done]; unfold ws_onopen, sendResize;
      by destruct fit as [|cs rs].
  - destruct data as [bytes|blob|s].
    + apply quiet_step; [| |done]; apply (write_frame_reports (Bytes bytes) c).
    + by apply quiet_step.
    + unfold announced. simpl.
      destruct (session_state_message JSON_parse s) as [msg|] eqn:Hmsg; simpl.
      * unfold call_onSessionState. destruct (hasOnSessionState c) eqn:Hcb; simpl;
          by rewrite ?app_nil_r.
      * destruct (write_frame_reports (Text s) c) as [Hh Hs]. split; [exact Hh|].
        change (sessionStates (write_frame (Text s) c)
                = sessionStates c ++ (if hasOnSessionState c then [] else [])).
        rewrite Hs. destruct (hasOnSessionState c); by rewrite app_nil_r.
  - apply quiet_step; [| |done]; unfold blob_then;
      (destruct (reading c !! k) as [bytes|]; [|done]);
      apply (write_frame_reports (Bytes bytes) (set_reading (delete k (reading c)) c)).
  - by apply quiet_step.
  - by apply quiet_step.
  - apply quiet_step; [| |done]; unfold term_onData; by destruct (Ws.is_open _).
  - apply quiet_step; [| |done]; unfold through_refs, fitAndSendResize; simpl;
      (destruct fit as [|cs rs]; simpl; [done|]);
      by destruct (Ws.is_open (readyState c)).
  - apply quiet_step; [| |done]; unfold through_refs, fitWhenActive; simpl;
      by destruct fit.
Qed.

(** Session-state messages reach the registry and nothing else: with a
    callback present, the calls made on it along a run are the states the
    message events announce, one call each and in order, and none of
    these messages is written to the surface; without a callback no call
    is made. *)
Theorem session_states_reported_in_order (cs rs : Z) (cb : bool) (es : list Event) :
  let c := run JSON_parse (initTerminal cs rs cb) es in
  sessionStates c = (if cb then announced JSON_parse es else [])
  /\ Forall (fun x => forall s,
               x = Text s -> session_state_message JSON_parse s = None)
       (written (calls (term c))).
Proof.
  assert (Hgen : forall es c,
            hasOnSessionState (run JSON_parse c es) = hasOnSessionState c
            /\ sessionStates (run JSON_parse c es)
               = sessionStates c
                 ++ (if hasOnSessionState c then announced JSON_parse es else [])).
  { clear es. induction es as [|e es IH]; intros c.
    - simpl. split; [done|]. destruct (hasOnSessionState c); by rewrite app_nil_r.
    - rewrite run_cons. destruct (IH (step JSON_parse c e)) as [Hh Hs].
      destruct (step_reports c e) as [Hh1 Hs1].
      rewrite Hh, Hs, Hh1, Hs1. split; [done|]. rewrite <- app_assoc. f_equal.
      destruct (hasOnSessionState c); [|done].
      unfold announced. simpl.
      by destruct (match e with Message (Ws.StringData s) => _ | _ => None end). }
  intros c. split; [apply (Hgen es (initTerminal cs rs cb))|].
  assert (Hperm := no_frame_payloads cs rs cb es). fold c in Hperm.
  apply list.Forall_forall. intros x Hx s ->.
  assert (Hin : Text s ∈ payloads JSON_parse es).
  { rewrite <- Hperm. apply elem_of_app. by left. }
  unfold payloads in Hin. apply list_elem_of_omap in Hin as (e & _ & He).
  destruct e as [|[| |s']| | | | | |]; try done. simpl in He.
  destruct (session_state_message JSON_parse s') eqn:Hs'; [done|].
  by injection He as ->.
Qed.

End TerminalTraffic.

(** ** The chat stream: frames and sends along a run *)

Section ChatLifecycle.
Import ChatView.

Variable JSON_parse : string -> option Js.value.
Variable trim : string -> string.

Lemma append_assoc (a b c : string) : (a +:+ b) +:+ c = a +:+ b +:+ c.
Proof.
  induction a as [|x a IH]; [done|].
  change (String x ((a +:+ b) +:+ c) = String x (a +:+ b +:+ c)). by rewrite IH.
Qed.

Lemma append_empty_r (a : string) : a +:+ EmptyString = a.
Proof.
  induction a as [|x a IH]; [done|].
  change (String x (a +:+ EmptyString) = String x a). by rewrite IH.
Qed.

(** A turn list is empty or ends in some turn. *)
Lemma last_cases (l : list ChatMessage) :
  l = [] \/ exists earlier m, l = earlier ++ [m].
Proof.
  destruct (last l) as [m|] eqn:Hl.
  - right. apply last_Some in Hl as [earlier ->]. by exists earlier, m.
  - left. by apply last_None.
Qed.

Lemma updaters_effect prev :
  turns_effect prev (done_updater prev)
  /\ (forall e, turns_effect prev (error_updater e prev))
  /\ (forall p, turns_effect prev (progress_updater p prev))
  /\ (forall t, turns_effect prev (append_updater t prev)).
Proof.
  destruct (last_cases prev) as [->|(earlier & l & ->)].
  - unfold done_updater, error_updater, progress_updater, append_updater. simpl.
    repeat split; intros; try (by left);
      right; left; eexists; (split; [done|split; [done|done]]).
  - destruct (is_assistant l) eqn:Hl.
    + destruct (updaters_keep_earlier earlier l Hl)
        as ((ld & Hd & Hda & _) & Herr & Hprog & Happ).
      repeat split.
      * right; right. exists earlier, l, ld. by rewrite Hd.
      * intros e. destruct (Herr e) as (l' & -> & ?). right; right. by exists earlier, l, l'.
      * intros p. destruct (Hprog p) as (l' & -> & ?). right; right. by exists earlier, l, l'.
      * intros t. destruct (Happ t) as (l' & -> & ? & _). right; right.
        by exists earlier, l, l'.
    + unfold done_updater, error_updater, progress_updater, append_updater.
      rewrite last_snoc, Hl. simpl. repeat split; intros; try by left.
      * right; left. eexists. split; [done|split; [done|]].
        intros l0. rewrite last_snoc. by intros [= <-].
      * right; left. eexists. split; [done|split; [done|]].
        intros l0. rewrite last_snoc. by intros [= <-].
Qed.

Lemma onmessage_effect (data : Ws.MessageData) (st : Chat) :
  input (ws_onmessage JSON_parse data st) = input st
  /\ connected (ws_onmessage JSON_parse data st) = connected st
  /\ wsRef (ws_onmessage JSON_parse data st) = wsRef st
  /\ turns_effect (messages st) (messages (ws_onmessage JSON_parse data st)).
Proof.
  destruct (updaters_effect (messages st)) as (Hdone & Herr & Hprog & Happ).
  assert (Hsame : turns_effect (messages st) (messages st)) by (by left).
  assert (Happend : forall t,
            input (appendToAssistant t st) = input st
            /\ connected (appendToAssistant t st) = connected st
            /\ wsRef (appendToAssistant t st) = wsRef st
            /\ turns_effect (messages st) (messages (appendToAssistant t st))).
  { intros t. unfold appendToAssistant. destruct (negb (Js.truthy t)); [done|].
    simpl. repeat split. apply Happ. }
  destruct data as [bytes|blob|s]; simpl; [done|done|].
  destruct (JSON_parse s) as [j|]; [|apply Happend].
  assert (Hobj :
    let st' :=
      if Js.is_true (Js.get j "done")
      then setStreaming false (setMessages done_updater st)
      else
        match Js.as_string (Js.get j "error") with
        | Some e => setStreaming false (setMessages (error_updater e) st)
        | None =>
            match Js.as_string (Js.get j "progress") with
            | Some p => setMessages (progress_updater p) st
            | None =>
                match Js.as_string (Js.get j "text") with
                | Some t => appendToAssistant t st
                | None => st
                end
            end
        end in
    input st' = input st /\ connected st' = connected st /\ wsRef st' = wsRef st
    /\ turns_effect (messages st) (messages st')).
  { simpl. destruct (Js.is_true _); simpl; [by repeat split|].
    destruct (Js.as_string (Js.get j "error")) as [e|]; simpl; [by repeat split|].
    destruct (Js.as_string (Js.get j "progress")) as [p|]; simpl; [by repeat split|].
    destruct (Js.as_string (Js.get j "text")) as [t|]; [apply Happend|done]. }
  destruct j; exact Hobj.
Qed.

(** An inbound frame leaves the input box, the connected flag and the
    socket as they are, and of the turns touches at most the last: it
    changes nothing, or adds an assistant turn after a list that does not
    end in one, or replaces a trailing assistant turn by an assistant
    turn.  No frame removes a turn or changes a user turn or any turn
    before the last. *)
Theorem frame_touches_last_turn_only (data : Ws.MessageData) (st : Chat) :
  let st' := ws_onmessage JSON_parse data st in
  input st' = input st
  /\ connected st' = connected st
  /\ wsRef st' = wsRef st
  /\ turns_effect (messages st) (messages st').
Proof. intros st'. apply onmessage_effect. Qed.




Lemma exchange_last rs : exchange rs -> rs = [] \/ last rs = Some assistant.
Proof.
  intros [| |rs' _]; [by left|by right|]. right.
  replace (rs' ++ [user; assistant]) with ((rs' ++ [user]) ++ [assistant])
    by (by rewrite <- app_assoc).
  apply last_snoc.
Qed.

Lemma user_turns_app l1 l2 : user_turns (l1 ++ l2) = (user_turns l1 + user_turns l2)%nat.
Proof. induction l1 as [|m l1 IH]; simpl; [done|]. rewrite IH. lia. Qed.

(** The invariant of the mounted component. *)
Lemma chat_inv_step (st : Chat) (e : Event) :
  (exchange (role <$> messages st)
   /\ (exists ws, wsRef st = Some ws /\ length (sent ws) = user_turns (messages st))
   /\ (streaming st = true -> messages st <> [])) ->
  let st' := step JSON_parse trim st e in
  exchange (role <$> messages st')
  /\ (exists ws, wsRef st' = Some ws /\ length (sent ws) = user_turns (messages st'))
  /\ (streaming st' = true -> messages st' <> []).
Proof.
  intros (Hex & (ws & Hws & Hsent) & Hstr). destruct e as [| | |data|value|]; simpl.
  - rewrite Hws. split; [done|split; [by eexists|done]].
  - rewrite Hws. split; [done|split; [by eexists|done]].
  - split; [done|split; [by eexists|done]].
  - destruct (onmessage_effect data st) as (_ & _ & Hw & Heff).
    assert (Hne : messages st <> [] -> messages (ws_onmessage JSON_parse data st) <> []).
    { destruct Heff as [->|[(m & -> & _)|(? & ? & ? & _ & -> & _)]]; try done;
        intros _ H; by apply app_eq_nil in H as [_ ?]. }
    assert (Hkeep : streaming (ws_onmessage JSON_parse data st) = true ->
                    streaming st = true).
    { destruct data as [bytes|blob|s]; simpl; try done.
      destruct (JSON_parse s) as [j|]; [|unfold appendToAssistant; by destruct (negb _)].
      assert (Hobj :
        streaming
          (if Js.is_true (Js.get j "done")
           then setStreaming false (setMessages done_updater st)
           else
             match Js.as_string (Js.get j "error") with
             | Some e => setStreaming false (setMessages (error_updater e) st)
             | None =>
                 match Js.as_string (Js.get j "progress") with
                 | Some p => setMessages (progress_updater p) st
                 | None =>
                     match Js.as_string (Js.get j "text") with
                     | Some t => appendToAssistant t st
                     | None => st
                     end
                 end
             end) = true -> streaming st = true).
      { destruct (Js.is_true _); simpl; [done|].
        destruct (Js.as_string (Js.get j "error")); simpl; [done|].
        destruct (Js.as_string (Js.get j "progress")); simpl; [done|].
        destruct (Js.as_string (Js.get j "text")); [|done].
        unfold appendToAssistant. by destruct (negb _). }
      destruct j; exact Hobj. }
    rewrite Hw. split; [|split; [exists ws; split; [done|]|by auto]].
    + destruct Heff as [->|[(m & -> & Hm & Hlast)|(earlier & l & l' & Hp & -> & Hl & Hl')]];
        [done| |].
      * destruct (exchange_last _ Hex) as [Hnil|Hl].
        -- apply fmap_nil_inv in Hnil. rewrite Hnil. simpl.
           unfold is_assistant in Hm. destruct (role m); [done|]. constructor.
        -- rewrite fmap_last in Hl. destruct (last (messages st)) as [l|] eqn:Hl'; [|done].
           specialize (Hlast l eq_refl). unfold is_assistant in Hlast.
           simpl in Hl. destruct (role l); [done|]. done.
      * rewrite Hp, !fmap_app in *. simpl in *.
        unfold is_assistant in Hl, Hl'. destruct (role l), (role l'); done.
    + destruct Heff as [->|[(m & -> & Hm & _)|(earlier & l & l' & Hp & -> & Hl & Hl')]];
        [done| |].
      * rewrite user_turns_app. simpl. rewrite Hm. lia.
      * rewrite Hsent, Hp, !user_turns_app. simpl. by rewrite Hl, Hl'.
  - split; [done|split; [by eexists|done]].
  - unfold sendMessage. destruct (negb (Js.truthy (trim (input st)))).
    + split; [done|split; [by eexists|done]].
    + rewrite Hws. destruct (negb (Ws.is_open (readyState ws))).
      * split; [done|split; [by eexists|done]].
      * simpl. split; [|split].
        -- rewrite fmap_app. by constructor.
        -- eexists. split; [done|]. simpl.
           rewrite length_app, user_turns_app, Hsent. simpl. lia.
        -- intros _ H. by apply app_eq_nil in H as [_ ?].
Qed.

(** From mount on, whatever the socket and the user do: the turns
    alternate between user and assistant and end with an assistant turn
    (at most one assistant turn comes before the first user turn), the
    socket was given exactly one payload per user turn, and the streaming
    flag is up only while there is a trailing assistant turn to stream
    into. *)
Theorem chat_transcript_shape (es : list Event) :
  let st := run JSON_parse trim mounted es in
  exchange (role <$> messages st)
  /\ (exists ws, wsRef st = Some ws /\ length (sent ws) = user_turns (messages st))
  /\ (streaming st = true ->
      exists earlier l, messages st = earlier ++ [l] /\ is_assistant l = true).
Proof.
  assert (Hgen : forall es st,
            (exchange (role <$> messages st)
             /\ (exists ws, wsRef st = Some ws
                            /\ length (sent ws) = user_turns (messages st))
             /\ (streaming st = true -> messages st <> [])) ->
            let st' := run JSON_parse trim st es in
            exchange (role <$> messages st')
            /\ (exists ws, wsRef st' = Some ws
                           /\ length (sent ws) = user_turns (messages st'))
            /\ (streaming st' = true -> messages st' <> [])).
  { clear es. induction es as [|e es IH]; intros st Hst; [done|].
    apply (IH (step JSON_parse trim st e)), chat_inv_step, Hst. }
  destruct (Hgen es mounted) as (Hex & Hsent & Hstr).
  { split; [constructor|split; [by eexists|done]]. }
  simpl. split; [done|split; [done|]]. intros Hs. specialize (Hstr Hs).
  destruct (last_cases (messages (run JSON_parse trim mounted es)))
    as [Hnil|(earlier & l & Hl)]; [done|].
  exists earlier, l. split; [done|].
  destruct (exchange_last _ Hex) as [Hn|Hlast].
  - rewrite Hl in Hn. apply fmap_nil_inv in Hn. by apply app_eq_nil in Hn as [_ ?].
  - rewrite Hl, fmap_snoc, last_snoc in Hlast. unfold is_assistant.
    by injection Hlast as ->.
Qed.




End ChatLifecycle.

(** ** The session registry: sessions from the API and runs of actions *)

Section RegistryRun.
Import TerminalTypes App.

Variable toLowerCase : string -> string.

(** The name a session from the API gets on its tab is the label of the
    theme of the tool it is mapped to, whatever tool string the API
    gives: a tool the client does not know is named and themed as the
    generic terminal. *)
Theorem tab_name_is_theme_label (item : SessionListItem.t) :
  let s := sessionListItemToSession toLowerCase item in
  TerminalSession.name s = ToolThemes.label (ToolThemes.toolThemes (TerminalSession.tool s)).
Proof.
  simpl. unfold sessionToName, mapApiTool.
  destruct (String.eqb _ "claude"); [done|].
  destruct (String.eqb _ "gemini"); [done|].
  destruct (String.eqb _ "codex"); [done|].
  by destruct (String.eqb _ "generic").
Qed.

Lemma all_sessions_single g : all_sessions [g] = TerminalGroup.sessions g.
Proof. unfold all_sessions. simpl. by rewrite app_nil_r. Qed.

Lemma load_facts (list : list SessionListItem.t) (st : State) :
  let st' := loadSessions toLowerCase list st in
  all_sessions (groups st') = map (sessionListItemToSession toLowerCase) list
  /\ TerminalSession.id <$> all_sessions (groups st') = SessionListItem.session_id <$> list
  /\ Forall (fun s => TerminalSession.status s <> error) (all_sessions (groups st'))
  /\ maximizedSession st' = maximizedSession st
  /\ (forall a, activeTabId st = Some a -> a <> EmptyString ->
       a ∈ SessionListItem.session_id <$> list -> activeTabId st' = Some a)
  /\ (forall a, activeTabId st' = Some a -> a ∈ SessionListItem.session_id <$> list)
  /\ (activeTabId st' = None <-> list = []).
Proof.
  intros st'.
  assert (Hall : all_sessions (groups st') = map (sessionListItemToSession toLowerCase) list).
  { unfold st', loadSessions. simpl groups. by rewrite all_sessions_single. }
  rewrite Hall. unfold st', loadSessions. simpl activeTabId. simpl maximizedSession.
  assert (Hids : TerminalSession.id <$> map (sessionListItemToSession toLowerCase) list
                 = SessionListItem.session_id <$> list).
  { clear. induction list as [|i l IH]; [done|]. cbn. by f_equal. }
  assert (Hexists : forall a,
            existsb (fun s => String.eqb (TerminalSession.id s) a)
              (map (sessionListItemToSession toLowerCase) list) = true
            <-> a ∈ SessionListItem.session_id <$> list).
  { intros a. rewrite <- Hids. rewrite existsb_exists, list_elem_of_fmap. split.
    - intros (x & Hx & He). apply String.eqb_eq in He. exists x.
      split; [done|]. by apply list_elem_of_In.
    - intros (x & -> & Hx). exists x. split; [by apply list_elem_of_In|].
      apply String.eqb_refl. }
  split; [done|split; [done|split; [|split; [done|split; [|split]]]]].
  - apply list.Forall_forall. intros s Hs. apply list_elem_of_In, in_map_iff in Hs.
    destruct Hs as (i & <- & _). simpl. unfold mapApiStatus.
    destruct (String.eqb _ "running"); [done|]. by destruct (String.eqb _ "exited").
  - intros a Ha Hne Hin. destruct list as [|i l]; [by apply elem_of_nil in Hin|].
    rewrite Ha. apply truthy_true in Hne. rewrite Hne.
    apply Hexists in Hin. by rewrite Hin.
  - intros a. destruct list as [|i l]; [done|]. simpl map. cbv iota.
    destruct (activeTabId st) as [prev|]; [|intros [= <-]; simpl; by left].
    destruct (Js.truthy prev && existsb _ _) eqn:He.
    + intros [= <-]. apply andb_true_iff in He as [_ He]. by apply Hexists.
    + intros [= <-]. simpl. by left.
  - destruct list as [|i l]; [done|]. simpl map. cbv iota. split; [|done].
    destruct (activeTabId st) as [prev|]; [|done].
    by destruct (Js.truthy prev && existsb _ _).
Qed.


Lemma fold_sum {A : Type} (f : A -> nat) (l : list A) (n : nat) :
  fold_left (fun sum x => (sum + f x)%nat) l n = (n + list_sum (f <$> l))%nat.
Proof.
  revert n. induction l as [|x l IH]; intros n; [simpl; lia|].
  rewrite fmap_cons. cbn [fold_left list_sum foldr]. rewrite IH. unfold list_sum. lia.
Qed.

Lemma length_all_sessions gs :
  length (all_sessions gs)
  = list_sum ((fun g => length (TerminalGroup.sessions g)) <$> gs).
Proof.
  unfold all_sessions. induction gs as [|g gs IH]; [done|].
  rewrite fmap_cons. cbn [flat_map list_sum foldr]. rewrite length_app, IH. done.
Qed.

Lemma filter_all_sessions (p : TerminalSession.t -> bool) gs :
  length (List.filter p (all_sessions gs))
  = list_sum ((fun g => length (List.filter p (TerminalGroup.sessions g))) <$> gs).
Proof.
  unfold all_sessions. induction gs as [|g gs IH]; [done|].
  rewrite fmap_cons. cbn [flat_map list_sum foldr].
  rewrite List.filter_app, length_app, IH. done.
Qed.

(** The header's counters count the sessions of all groups: the total is
    the number of sessions listed, the running count the number of those
    with status [running], and so never more than the total. *)
Theorem header_counters (st : State) :
  totalSessions st = length (all_sessions (groups st))
  /\ runningSessions st = length (List.filter is_running (all_sessions (groups st)))
  /\ (runningSessions st <= totalSessions st)%nat.
Proof.
  assert (Ht : totalSessions st = length (all_sessions (groups st))).
  { unfold totalSessions. by rewrite fold_sum, length_all_sessions. }
  assert (Hr : runningSessions st
               = length (List.filter is_running (all_sessions (groups st)))).
  { unfold runningSessions. by rewrite fold_sum, filter_all_sessions. }
  split; [done|split; [done|]]. rewrite Ht, Hr. apply List.filter_length_le.
Qed.

Lemma ids_after_state_report sessionId tool status (l : list TerminalSession.t) :
  TerminalSession.id
    <$> map (fun s => if bool_decide (TerminalSession.id s = sessionId)
                      then with_state s tool status else s) l
  = TerminalSession.id <$> l.
Proof.
  induction l as [|s l IH]; [done|]. cbn. f_equal; [|done].
  by destruct (bool_decide _).
Qed.

Lemma find_listed (a : string) (l : list TerminalSession.t) :
  a ∈ TerminalSession.id <$> l ->
  is_Some (List.find (fun s => String.eqb (TerminalSession.id s) a) l).
Proof.
  induction l as [|s l IH]; [by intros ?%elem_of_nil|].
  rewrite fmap_cons. intros Ha. simpl.
  destruct (String.eqb (TerminalSession.id s) a) eqn:He; [by eexists|].
  apply elem_of_cons in Ha as [->|Ha]; [by rewrite String.eqb_refl in He|by apply IH].
Qed.

Lemma single_group_sessions g l :
  all_sessions [with_sessions g l] = l
  /\ TerminalGroup.id (with_sessions g l) = TerminalGroup.id g.
Proof. split; [|done]. unfold all_sessions. simpl. by rewrite app_nil_r. Qed.

Lemma act_keeps_inv (st : State) (a : Action) :
  registry_inv st ->
  (forall sessionId, a = TabClicked sessionId -> sessionId ∈ session_ids st) ->
  registry_inv (act toLowerCase st a).
Proof.
  intros ((g & Hg & Hid) & Hnone & Hin) Hclick.
  unfold session_ids in *. rewrite Hg, all_sessions_single in *.
  assert (Hsame : forall st',
            groups st' = groups st -> activeTabId st' = activeTabId st ->
            registry_inv st').
  { intros st' Hg' Ha'. unfold registry_inv, session_ids.
    rewrite Hg', Ha', Hg, all_sessions_single. split; [by eexists|done]. }
  destruct a as [list|session|deleted sessionId|sessionId tool status|sessionId
                |sessionId| |mode]; cbn [act]; try (by apply Hsame).
  - destruct (load_facts list st) as (Hall & Hids & _ & _ & _ & Hlisted & Hempty).
    unfold registry_inv, session_ids. rewrite Hids, Hall. split; [|split].
    + unfold loadSessions. cbn [groups]. rewrite Hg. cbn [List.find].
      rewrite Hid, String.eqb_refl. by eexists.
    + rewrite Hempty. split; [by intros ->|]. by destruct list.
    + exact Hlisted.
  - unfold registry_inv, session_ids, addSession. cbn [groups activeTabId].
    rewrite Hg. cbn [map]. rewrite bool_decide_eq_true_2 by done.
    destruct (single_group_sessions g (TerminalGroup.sessions g ++ [session])) as [-> Hi].
    split; [by eexists|split].
    + split; [done|]. intros H. by apply app_eq_nil in H as [_ ?].
    + intros ? [= <-]. rewrite fmap_app. apply elem_of_app. right. by left.
  - destruct deleted; [|by apply Hsame].
    unfold registry_inv, session_ids, closeSession. cbn [groups activeTabId].
    rewrite Hg. cbn [map]. rewrite all_sessions_single.
    destruct (single_group_sessions g
                (filter (fun s => TerminalSession.id s <> sessionId)
                   (TerminalGroup.sessions g))) as [-> Hi].
    split; [by eexists|].
    destruct (activeTabId st) as [prev|] eqn:Hprev.
    + destruct (decide (prev = sessionId)) as [->|Hne].
      * rewrite bool_decide_eq_false_2 by (intros H; by apply H).
        destruct (filter _ (TerminalGroup.sessions g)) as [|s rest] eqn:Hf; simpl.
        -- done.
        -- split; [done|]. intros ? [= <-]. by left.
      * rewrite bool_decide_eq_true_2 by done.
        assert (Hstill : prev ∈ TerminalSession.id
                  <$> filter (fun s => TerminalSession.id s <> sessionId)
                        (TerminalGroup.sessions g)).
        { specialize (Hin prev eq_refl). apply list_elem_of_fmap in Hin as (s & -> & Hs).
          apply list_elem_of_fmap. exists s. split; [done|].
          by apply list_elem_of_filter. }
        split; [|by intros ? [= <-]].
        split; [done|]. intros Hf. rewrite Hf in Hstill. by apply elem_of_nil in Hstill.
    + assert (Hs : TerminalGroup.sessions g = []) by (by apply Hnone).
      rewrite Hs. done.
  - unfold registry_inv, session_ids, setSessionState. cbn [groups activeTabId].
    rewrite Hg. cbn [map].
    destruct (single_group_sessions g
                (map (fun s => if bool_decide (TerminalSession.id s = sessionId)
                               then with_state s tool status else s)
                   (TerminalGroup.sessions g))) as [-> Hi].
    rewrite ids_after_state_report.
    split; [by eexists|split; [|done]].
    rewrite Hnone. split; [by intros ->|]. by destruct (TerminalGroup.sessions g).
  - unfold registry_inv, session_ids, selectTab. cbn [groups activeTabId].
    rewrite Hg, all_sessions_single. specialize (Hclick sessionId eq_refl).
    split; [by eexists|split].
    + split; [done|]. intros Hs. rewrite Hs in Hclick. by apply elem_of_nil in Hclick.
    + by intros ? [= <-].
Qed.

(** Whatever the user and the backend do, the registry holds one group,
    the default one; a tab is selected exactly when there are sessions,
    and the selected tab is a listed session, so the tabs view has a
    terminal to show whenever any session exists.  (The handlers are
    taken to see the current session list.) *)
Theorem registry_keeps_a_listed_tab (st : State) :
  reachable toLowerCase st ->
  registry_inv st
  /\ (is_Some (activeSession st) <-> all_sessions (groups st) <> []).
Proof.
  intros Hr.
  assert (Hinv : registry_inv st).
  { induction Hr as [|st a _ IH Hclick]; [|by apply act_keeps_inv].
    split; [by eexists|]. by split. }
  split; [done|]. destruct Hinv as (_ & Hnone & Hin). unfold activeSession.
  destruct (activeTabId st) as [a|].
  - split.
    + intros _ Hs. destruct Hnone as [_ Hn]. by specialize (Hn Hs).
    + intros _. apply find_listed. by apply Hin.
  - split; [by intros [? ?]|]. intros Hs. destruct Hnone as [Hn _]. by specialize (Hn eq_refl).
Qed.

End RegistryRun.

(** ** The older chat handler: streamed chunks *)

Section LegacyChunks.
Import ChatViewLegacy.

Variable JSON_parse : string -> option Js.value.

Lemma legacy_set_last_snoc (earlier : list ChatMessage) l m :
  set_last m (earlier ++ [l]) = earlier ++ [m].
Proof.
  unfold set_last. rewrite length_app. simpl.
  replace (length earlier + 1 - 1)%nat with (length earlier + 0)%nat by lia.
  by rewrite insert_app_r.
Qed.

Lemma raw_chunk_step s st :
  raw_chunk JSON_parse s = true ->
  ws_onmessage JSON_parse (Ws.StringData s) st = setMessages (chunk_updater s) st.
Proof.
  unfold raw_chunk. simpl. destruct (JSON_parse s) as [j|]; [|done].
  destruct (Js.is_true _); [done|].
  by destruct (Js.as_string (Js.get j "error")).
Qed.

(** In the handler without progress frames every string frame other than
    [done] and [error] is a chunk of the answer: received while the last
    turn is an assistant turn, such frames leave the earlier turns as
    they are and add their own text, whole and in the order received,
    to that turn; a frame that is JSON, a text or progress frame
    included, is added as the JSON text it is. *)
Theorem legacy_chunks_concatenate (st : Chat) (earlier : list ChatMessage)
    (l : ChatMessage) (frames : list string) :
  messages st = earlier ++ [l] ->
  is_assistant l = true ->
  Forall (fun s => raw_chunk JSON_parse s = true) frames ->
  messages (receive JSON_parse st (Ws.StringData <$> frames))
  = earlier ++ [mkMessage assistant (content l +:+ ChatView.concat_all frames)].
Proof.
  intros Hm Hl Hfs. revert st l Hm Hl.
  induction Hfs as [|s frames Hs _ IH]; intros st l Hm Hl.
  - simpl. rewrite append_empty_r, Hm. destruct l as [[] c]; done.
  - rewrite fmap_cons.
    change (receive JSON_parse st (Ws.StringData s :: (Ws.StringData <$> frames)))
      with (receive JSON_parse (ws_onmessage JSON_parse (Ws.StringData s) st)
              (Ws.StringData <$> frames)).
    rewrite (raw_chunk_step s st Hs).
    assert (Hm1 : messages (setMessages (chunk_updater s) st)
                  = earlier ++ [mkMessage (role l) (content l +:+ s)]).
    { simpl. unfold chunk_updater. rewrite Hm, last_snoc, Hl. simpl.
      apply legacy_set_last_snoc. }
    rewrite (IH _ _ Hm1) by (by destruct l as [[] c]).
    simpl. by rewrite append_assoc.
Qed.

End LegacyChunks.

(** ** The sessions API, the socket URL and the mobile input bar *)

Section Boundary.

(** A delete request counts as done exactly when the response status is
    in the range 200 to 299 (the test for 204 adds nothing to
    [res.ok]); a request that fails, or any other status, makes
    [deleteSession] throw, and [closeSession] then leaves the registry as
    it is, the session still listed. *)
Theorem delete_settles_by_status (res : SessionsApi.Response) :
  (SessionsApi.deleteSession (SessionsApi.Responded res) = App.Resolved
   <-> 200 <= SessionsApi.status res <= 299)
  /\ SessionsApi.deleteSession SessionsApi.Failed = App.Rejected
  /\ (forall seen sessionId st,
        ~ 200 <= SessionsApi.status res <= 299 ->
        App.closeSession (SessionsApi.deleteSession (SessionsApi.Responded res))
          seen sessionId st = st
        /\ App.closeSession (SessionsApi.deleteSession SessionsApi.Failed)
             seen sessionId st = st).
Proof.
  assert (Hok : SessionsApi.deleteSession (SessionsApi.Responded res) = App.Resolved
                <-> 200 <= SessionsApi.status res <= 299).
  { unfold SessionsApi.deleteSession, SessionsApi.ok.
    destruct (200 <=? SessionsApi.status res) eqn:H1;
      destruct (SessionsApi.status res <=? 299) eqn:H2;
      destruct (SessionsApi.status res =? 204) eqn:H3; simpl;
      try apply Z.leb_le in H1; try apply Z.leb_le in H2;
      try apply Z.leb_gt in H1; try apply Z.leb_gt in H2;
      try apply Z.eqb_eq in H3; split; try done; try lia. }
  split; [done|split; [done|]]. intros seen sessionId st Hbad.
  split; [|done].
  destruct (SessionsApi.deleteSession (SessionsApi.Responded res)) eqn:Hd; [|done].
  exfalso. by apply Hbad, Hok.
Qed.

(** The socket goes to the host the sessions API is on: for a page served
    over http or https, and where there is no window, the socket URL is
    the API's base URL with its leading "http" replaced by "ws", followed
    by the path, so https gives wss. *)
Theorem socket_url_follows_api_base (window : option WsUrl.Location) (path : string) :
  match window with
  | Some location => WsUrl.web_page location
  | None => True
  end ->
  exists rest,
    WsUrl.getBaseUrl window = "http" +:+ rest
    /\ WsUrl.getWebSocketUrl window path = "ws" +:+ rest +:+ path.
Proof.
  destruct window as [[protocol host origin]|]; unfold WsUrl.web_page; simpl.
  - intros [[->| ->] ->].
    + exists ("://" +:+ host). split; reflexivity.
    + exists ("s://" +:+ host). split; reflexivity.
  - intros _. exists "://127.0.0.1:5182". split; reflexivity.
Qed.

Variable trim : string -> string.



End Boundary.

(** The blobs "HI" and "!" with the first read before the second
    completes. *)
Lemma binary_output_in_arrival_order_witness :
  let c := TerminalView.run Wire.parse (TerminalView.initTerminal 80 24 true)
             [TerminalView.Message (Ws.BlobData [x48; x49]);
              TerminalView.Message (Ws.BlobData [x21]);
              TerminalView.BlobRead 0] in
  TerminalView.binary_written (TerminalView.calls (TerminalView.term c))
    ++ TerminalView.reading c
  = [[x48; x49]; [x21]].
Proof.
  apply (binary_output_in_arrival_order Wire.parse 80 24 true
           [TerminalView.Message (Ws.BlobData [x48; x49]);
            TerminalView.Message (Ws.BlobData [x21]);
            TerminalView.BlobRead 0]).
  repeat constructor.
Defined.


(** A progress frame and a bare chunk in the older handler. *)
Lemma legacy_chunks_concatenate_witness :
  ChatViewLegacy.messages
    (ChatViewLegacy.receive Wire.parse
       (ChatViewLegacy.mkChat
          [ChatViewLegacy.mkMessage ChatViewLegacy.user "hello";
           ChatViewLegacy.mkMessage ChatViewLegacy.assistant EmptyString]
          EmptyString true true (Some (ChatView.mkSocket Ws.OPEN ["hello"])))
       (Ws.StringData <$> [Wire.progress_thinking; "Hi"]))
  = [ChatViewLegacy.mkMessage ChatViewLegacy.user "hello"]
    ++ [ChatViewLegacy.mkMessage ChatViewLegacy.assistant
          (EmptyString +:+ ChatView.concat_all [Wire.progress_thinking; "Hi"])].
Proof.
  apply (legacy_chunks_concatenate Wire.parse
           (ChatViewLegacy.mkChat
              [ChatViewLegacy.mkMessage ChatViewLegacy.user "hello";
               ChatViewLegacy.mkMessage ChatViewLegacy.assistant EmptyString]
              EmptyString true true (Some (ChatView.mkSocket Ws.OPEN ["hello"])))
           [ChatViewLegacy.mkMessage ChatViewLegacy.user "hello"]
           (ChatViewLegacy.mkMessage ChatViewLegacy.assistant EmptyString)
           [Wire.progress_thinking; "Hi"]).
  - reflexivity.
  - reflexivity.
  - repeat constructor.
Defined.

(** A session added and its tab clicked. *)
Lemma registry_keeps_a_listed_tab_witness :
  let st := App.act Wire.lower
              (App.act Wire.lower App.initial
                 (App.Added (App.sample_session "a" "Claude" "claude" TerminalTypes.claude 1)))
              (App.TabClicked "a") in
  App.registry_inv st
  /\ (is_Some (App.activeSession st) <-> App.all_sessions (App.groups st) <> []).
Proof.
  apply (registry_keeps_a_listed_tab Wire.lower).
  apply App.reachable_act.
  - apply App.reachable_act; [apply App.reachable_initial|]. intros sessionId H. discriminate H.
  - intros sessionId H. injection H as <-. apply list_elem_of_here.
Defined.

(** A page on https://example.test. *)
Lemma socket_url_follows_api_base_witness :
  exists rest,
    WsUrl.getBaseUrl
      (Some (WsUrl.mkLocation "https:" "example.test" "https://example.test"))
    = "http" +:+ rest
    /\ WsUrl.getWebSocketUrl
         (Some (WsUrl.mkLocation "https:" "example.test" "https://example.test"))
         "/ws/chat"
       = "ws" +:+ rest +:+ "/ws/chat".
Proof.
  apply (socket_url_follows_api_base
           (Some (WsUrl.mkLocation "https:" "example.test" "https://example.test"))
           "/ws/chat").
  split; [by right|reflexivity].
Defined.

